(** * SciSciNet Dartmouth chat dashboard: a shallow embedding of [src/App.jsx]

  The development follows the source file top to bottom:

  - [JS]            the fragment of JavaScript values the component handles
                    (JSON payloads, truthiness, [String(v)], property reads);
  - [Csv]           [escapeCsvCell] and [toCsv];
  - [VegaView]      the mount effect of the [VegaView] component, as a
                    transition system over effect runs;
  - [App]           the state of the [App] component and its handlers
                    ([post], [loadYearChart], [loadFieldChart], [send],
                    the [pick] listener, [selectionSummary],
                    [quickAskFromSelection]);
  - [Session]       the event loop around [App]: user events, renders and
                    settling requests, interleaved;
  - [Downloads]     [dataUrlToBlob], the four download handlers and the
                    flags of their buttons;
  - [CsvReader]     a reader of comma-separated text, to read [toCsv] back;
  - [PickChannel]   the effect that attaches the listener of the signal
                    pick to the current view.

  Strings are [string] (sequences of 8-bit characters); the quote, line feed
  and carriage return characters are written by their decimal codes. *)

From Stdlib Require Import ZArith String Ascii List Bool Lia DecimalString.
Import ListNotations.

Set Warnings "-register-all".

Local Open Scope string_scope.
Local Open Scope Z_scope.

(* ================================================================== *)
(** ** JavaScript values *)
(* ================================================================== *)

Module JS.

(** A finite JS number, kept as the decimal it was written as:
    [mantissa * 10 ^ (- scale)].  [2020] is [mkNumber 2020 0] and [0.3] is
    [mkNumber 3 1].  This covers the numbers of the source and of JSON
    payloads in the range where JavaScript prints positional notation. *)
Record Number := mkNumber { mantissa : Z; scale : nat }.

Definition int (z : Z) : Number := mkNumber z 0.

(** Values: [undefined], [null], booleans, numbers, strings, arrays, plain
    objects and the built-in functions, which an object inherits from
    [Object.prototype] and which are known by their name.  An object is the
    list of its own enumerable properties in [Object.keys] order. *)
Inductive Value :=
| VUndefined
| VNull
| VBool (b : bool)
| VNum (n : Number)
| VStr (s : string)
| VArr (l : list Value)
| VObj (o : list (string * Value))
| VFun (name : string).

Definition Obj := list (string * Value).

Definition dquote : ascii := "034"%char.
Definition LF : ascii := "010"%char.
Definition CR : ascii := "013"%char.

Definition str1 (c : ascii) : string := String c EmptyString.

(** *** Property reads *)

(** The own property [k] of [o], when there is one. *)
Fixpoint own_property (o : Obj) (k : string) : option Value :=
  match o with
  | [] => None
  | (k', v) :: o' => if String.eqb k' k then Some v else own_property o' k
  end.

(** [o.k] on an object, for the keys that the source names itself
    (vegaLiteSpec, data, plan, answer, chart_type, year, ...): none of them
    is a member of [Object.prototype], so a missing one reads as
    [undefined]. *)
Definition get (o : Obj) (k : string) : Value :=
  match own_property o k with
  | Some v => v
  | None => VUndefined
  end.

(** The methods of [Object.prototype], apart from [constructor]. *)
Definition Object_prototype_methods : list string :=
  [ "__defineGetter__"; "__defineSetter__"; "hasOwnProperty";
    "__lookupGetter__"; "__lookupSetter__"; "isPrototypeOf";
    "propertyIsEnumerable"; "toString"; "valueOf"; "toLocaleString" ].

(** [Object.prototype[k]]: [constructor] is the function Object, the methods
    are functions of their own name, and [__proto__] gives the prototype
    itself, an object with no enumerable property of its own. *)
Definition Object_prototype (k : string) : Value :=
  if String.eqb k "constructor" then VFun "Object"
  else if existsb (String.eqb k) Object_prototype_methods then VFun k
  else if String.eqb k "__proto__" then VObj []
  else VUndefined.

(** [o[k]] on a plain object for a key that can be any string: the own
    property when there is one, and what the object inherits otherwise. *)
Definition lookup (o : Obj) (k : string) : Value :=
  match own_property o k with
  | Some v => v
  | None => Object_prototype k
  end.

(** [v.k] on a value that is known not to be [null] or [undefined]:
    primitives and arrays have no property of the names the source reads. *)
Definition prop (v : Value) (k : string) : Value :=
  match v with
  | VObj o => get o k
  | _ => VUndefined
  end.

Definition nat_to_string (n : nat) : string :=
  NilZero.string_of_uint (Nat.to_uint n).

(** [Object.keys(v)]. *)
Definition Object_keys (v : Value) : list string :=
  match v with
  | VObj o => map fst o
  | VArr l => map nat_to_string (seq 0 (List.length l))
  | VStr s => map nat_to_string (seq 0 (String.length s))
  | _ => []
  end.

(** *** Truthiness *)

Definition truthy (v : Value) : bool :=
  match v with
  | VUndefined | VNull => false
  | VBool b => b
  | VNum n => negb (mantissa n =? 0)
  | VStr s => negb (String.eqb s EmptyString)
  | VArr _ | VObj _ | VFun _ => true
  end.

(** [a || b]. *)
Definition or_else (a b : Value) : Value := if truthy a then a else b.

(** [v === s] for a string literal [s]. *)
Definition strict_eq_str (v : Value) (s : string) : bool :=
  match v with
  | VStr t => String.eqb t s
  | _ => false
  end.

(** *** [String(v)] *)

(** Drops the zeros that end a digit string. *)
Fixpoint strip_zeros (s : string) : string :=
  match s with
  | EmptyString => EmptyString
  | String c r =>
      match strip_zeros r with
      | EmptyString => if Ascii.eqb c "0"%char then EmptyString else str1 c
      | r' => String c r'
      end
  end.

Fixpoint zeros (n : nat) : string :=
  match n with
  | O => EmptyString
  | S n' => String "0"%char (zeros n')
  end.

Definition num_to_string (n : Number) : string :=
  let m := mantissa n in
  let e := scale n in
  let ds := NilZero.string_of_int (Z.to_int (Z.abs m)) in
  let ds := (zeros (S e - String.length ds) ++ ds)%string in
  let cut := (String.length ds - e)%nat in
  let ip := substring 0 cut ds in
  let fp := strip_zeros (substring cut e ds) in
  let body :=
    match fp with
    | EmptyString => ip
    | _ => (ip ++ "." ++ fp)%string
    end in
  if m <? 0 then ("-" ++ body)%string else body.

(** [String(v)], which is also what a template literal inserts. *)
Fixpoint js_String (v : Value) : string :=
  match v with
  | VUndefined => "undefined"
  | VNull => "null"
  | VBool true => "true"
  | VBool false => "false"
  | VNum n => num_to_string n
  | VStr s => s
  | VArr l =>
      String.concat ","
        (map (fun x =>
                match x with
                | VUndefined | VNull => EmptyString
                | _ => js_String x
                end) l)
  | VObj _ => "[object Object]"
  | VFun name => "function " ++ name ++ "() { [native code] }"
  end.

(** *** The two regular expressions of the source *)

(** [re.test(s)] for a regular expression that is one character class. *)
Fixpoint test_class (cls : ascii -> bool) (s : string) : bool :=
  match s with
  | EmptyString => false
  | String c r => cls c || test_class cls r
  end.

(** [s.replace(/c/g, by)] for a one-character pattern. *)
Fixpoint replace_all (c : ascii) (by_ : string) (s : string) : string :=
  match s with
  | EmptyString => EmptyString
  | String d r =>
      if Ascii.eqb d c then (by_ ++ replace_all c by_ r)%string
      else String d (replace_all c by_ r)
  end.

(** *** [s.trim()] *)

(** The white space and the line terminators among the code units of the
    model: tab, line feed, vertical tab, form feed, carriage return, space
    and no-break space (the others that [trim] removes are above 255). *)
Definition is_space (c : ascii) : bool :=
  let n := nat_of_ascii c in
  ((9 <=? n) && (n <=? 13))%nat || (n =? 32)%nat || (n =? 160)%nat.

Fixpoint trim_start (s : string) : string :=
  match s with
  | EmptyString => EmptyString
  | String c r => if is_space c then trim_start r else s
  end.

Fixpoint trim_end (s : string) : string :=
  match s with
  | EmptyString => EmptyString
  | String c r =>
      match trim_end r with
      | EmptyString => if is_space c then EmptyString else str1 c
      | r' => String c r'
      end
  end.

Definition trim (s : string) : string := trim_end (trim_start s).

(** *** Thrown errors *)

(** An [Error] object: its [name] (Error, TypeError, ...) and [message]. *)
Record JsError := mkError { name : string; message : string }.

(** [Error.prototype.toString]. *)
Definition error_toString (e : JsError) : string :=
  if String.eqb (name e) EmptyString then message e
  else if String.eqb (message e) EmptyString then name e
  else (name e ++ ": " ++ message e)%string.

(** [String(e?.message || e)]. *)
Definition error_text (e : JsError) : string :=
  if String.eqb (message e) EmptyString then error_toString e else message e.

End JS.

(* ================================================================== *)
(** ** CSV export *)
(* ================================================================== *)

Module Csv.
Import JS.

(** The character class of the regular expression in [escapeCsvCell]:
  double quote, comma, line feed, carriage return. *)
Definition csv_special (c : ascii) : bool :=
  Ascii.eqb c dquote || Ascii.eqb c ","%char || Ascii.eqb c LF || Ascii.eqb c CR.

Definition escapeCsvCell (v : Value) : string :=
  let s :=
    match v with
    | VNull | VUndefined => EmptyString
    | _ => js_String v
    end in
  if test_class csv_special s
  then (str1 dquote ++ replace_all dquote (String dquote (str1 dquote)) s ++ str1 dquote)%string
  else s.

(** The array [lines] that [toCsv] builds for a non-empty [rows]. *)
Definition csv_lines (r0 : Obj) (rows : list Obj) : list string :=
  let headers := Object_keys (VObj r0) in
  String.concat "," (map (fun h => escapeCsvCell (VStr h)) headers)
  :: map (fun r => String.concat "," (map (fun h => escapeCsvCell (lookup r h)) headers)) rows.

(** [toCsv(rows)] on an array of records; the empty array stands for every
    falsy or empty [rows]. *)
Definition toCsv (rows : list Obj) : string :=
  match rows with
  | [] => EmptyString
  | r0 :: _ => String.concat (str1 LF) (csv_lines r0 rows)
  end.

End Csv.

(* ================================================================== *)
(** ** The mount effect of [VegaView] *)
(* ================================================================== *)

Module VegaView.

(** The effect of [VegaView] runs once per change of [spec]; React calls the
    cleanup of the previous run first.  Runs are numbered 1, 2, ... in the
    order they start.  Each run has its own [canceled] variable, and the view
    that run [g] obtains from [vegaEmbed] is named [g]. *)
Record Session := mkSession {
  generation : nat;       (* runs started so far; the latest run *)
  current : option nat;   (* the run whose cleanup is installed *)
  canceled : list nat;    (* runs whose [canceled] is true *)
  pending : list nat;     (* runs suspended at [await vegaEmbed] *)
  viewRef : option nat;   (* [viewRef.current] *)
  view : option nat;      (* the last argument of [onView]: the [view] of [App] *)
  finalized : list nat    (* views that received [finalize()], oldest first *)
}.

Definition init : Session := mkSession 0 None [] [] None None [].

Definition mem (g : nat) (l : list nat) : bool := existsb (Nat.eqb g) l.

Definition drop (g : nat) (l : list nat) : list nat :=
  filter (fun h => negb (Nat.eqb g h)) l.

(** [if (viewRef.current) { viewRef.current.finalize(); viewRef.current = null }]
    (an exception of [finalize] is swallowed; the call has been made). *)
Definition finalize_ref (s : Session) : Session :=
  match viewRef s with
  | Some v =>
      mkSession (generation s) (current s) (canceled s) (pending s) None (view s)
        (finalized s ++ [v])
  | None => s
  end.

(** The function the effect returns, for run [g]. *)
Definition cleanup (g : nat) (s : Session) : Session :=
  let s := mkSession (generation s) (current s) (g :: canceled s) (pending s)
             (viewRef s) (view s) (finalized s) in            (* canceled = true *)
  let s := mkSession (generation s) (current s) (canceled s) (pending s)
             (viewRef s) None (finalized s) in                (* onView?.(null) *)
  finalize_ref s.

(** [run()] up to its [await], for run [g]. *)
Definition run_start (g : nat) (spec container : bool) (s : Session) : Session :=
  if negb spec || negb container then s
  else
    let s := finalize_ref s in
    mkSession (generation s) (current s) (canceled s) (g :: pending s)
      (viewRef s) (view s) (finalized s).

(** [run()] after [vegaEmbed] resolved, for run [g]; [has_view] tells whether
    [result?.view] is there. *)
Definition run_resume (g : nat) (has_view : bool) (s : Session) : Session :=
  if mem g (canceled s) then
    if has_view
    then mkSession (generation s) (current s) (canceled s) (pending s)
           (viewRef s) (view s) (finalized s ++ [g])
    else s
  else
    let r := if has_view then Some g else None in
    mkSession (generation s) (current s) (canceled s) (pending s) r r (finalized s).

(** The handler of [run().catch], for run [g]. *)
Definition run_failed (g : nat) (s : Session) : Session :=
  if mem g (canceled s) then s
  else mkSession (generation s) (current s) (canceled s) (pending s)
         (viewRef s) None (finalized s).

Inductive Event :=
| Mount (spec container : bool)          (* [spec] changed: the effect runs again *)
| Unmount                                (* the component goes away *)
| EmbedResolves (g : nat) (has_view : bool)
| EmbedRejects (g : nat).

Definition run_cleanup (s : Session) : Session :=
  match current s with
  | Some g => cleanup g s
  | None => s
  end.

Definition step (e : Event) (s : Session) : Session :=
  match e with
  | Mount spec container =>
      let s := run_cleanup s in
      let g := S (generation s) in
      let s := mkSession g (Some g) (canceled s) (pending s)
                 (viewRef s) (view s) (finalized s) in
      run_start g spec container s
  | Unmount =>
      let s := run_cleanup s in
      mkSession (generation s) None (canceled s) (pending s)
        (viewRef s) (view s) (finalized s)
  | EmbedResolves g has_view =>
      if mem g (pending s) then
        run_resume g has_view
          (mkSession (generation s) (current s) (canceled s) (drop g (pending s))
             (viewRef s) (view s) (finalized s))
      else s
  | EmbedRejects g =>
      if mem g (pending s) then
        run_failed g
          (mkSession (generation s) (current s) (canceled s) (drop g (pending s))
             (viewRef s) (view s) (finalized s))
      else s
  end.

(** The events of a trace, oldest first. *)
Definition run (evs : list Event) (s : Session) : Session :=
  fold_left (fun s e => step e s) evs s.

End VegaView.

(* ================================================================== *)
(** ** The [App] component *)
(* ================================================================== *)

Module App.
Import JS.

Definition API : string := "http://127.0.0.1:8004".

Inductive Role := user | assistant.

Record Message := mkMessage { role : Role; text : Value }.

(** The [useState] cells of [App]. *)
Record State := mkState {
  spec : Value;
  err : string;
  data : Value;
  plan : Value;
  view : option nat;
  selected : Value;
  input : string;
  messages : list Message;
  sending : bool
}.

Definition init : State :=
  mkState VNull EmptyString VNull VNull None VNull
    "show me the number of papers by year from 2020 to 2024" [] false.

Definition setSpec (v : Value) (s : State) : State :=
  mkState v (err s) (data s) (plan s) (view s) (selected s) (input s) (messages s) (sending s).
Definition setErr (v : string) (s : State) : State :=
  mkState (spec s) v (data s) (plan s) (view s) (selected s) (input s) (messages s) (sending s).
Definition setData (v : Value) (s : State) : State :=
  mkState (spec s) (err s) v (plan s) (view s) (selected s) (input s) (messages s) (sending s).
Definition setPlan (v : Value) (s : State) : State :=
  mkState (spec s) (err s) (data s) v (view s) (selected s) (input s) (messages s) (sending s).
Definition setView (v : option nat) (s : State) : State :=
  mkState (spec s) (err s) (data s) (plan s) v (selected s) (input s) (messages s) (sending s).
Definition setSelected (v : Value) (s : State) : State :=
  mkState (spec s) (err s) (data s) (plan s) (view s) v (input s) (messages s) (sending s).
Definition setInput (v : string) (s : State) : State :=
  mkState (spec s) (err s) (data s) (plan s) (view s) (selected s) v (messages s) (sending s).
(** [setMessages] is always called with an updater of the latest value. *)
Definition setMessages (f : list Message -> list Message) (s : State) : State :=
  mkState (spec s) (err s) (data s) (plan s) (view s) (selected s) (input s) (f (messages s)) (sending s).
Definition setSending (v : bool) (s : State) : State :=
  mkState (spec s) (err s) (data s) (plan s) (view s) (selected s) (input s) (messages s) v.

(** *** [post] *)

Record Request := mkRequest { url : string; body : Value }.

(** What [fetch] and [r.json()] come to: [fetch] rejects, or a response
    arrives with its status and the outcome of parsing its body, which is
    an error or the parsed value.  The three endpoints answer with a JSON
    object, so the parsed value is an [Obj]: a property read on it cannot
    throw. *)
Inductive FetchResult :=
| FetchRejects (e : JsError)
| FetchResponse (status : Z) (json : JsError + Obj).

(** [r.ok]. *)
Definition ok (status : Z) : bool := (200 <=? status) && (status <=? 299).

(** [post] up to [await fetch]. *)
Definition post_start (path : string) (b : Value) (s : State) : State * Request :=
  (setErr EmptyString s, mkRequest (API ++ path) b).

(** [post] after [fetch] settled: the value it returns or the error it throws. *)
Definition post_result (r : FetchResult) : JsError + Obj :=
  match r with
  | FetchRejects e => inl e
  | FetchResponse status json =>
      if negb (ok status)
      then inl (mkError "Error" ("HTTP " ++ js_String (VNum (int status))))
      else json
  end.

Definition num (z : Z) : Value := VNum (int z).

(** *** The quick charts *)

Definition year_chart_plan : Value :=
  VObj [ ("chart_type", VStr "papers_by_year");
         ("year_from", num 2020);
         ("year_to", num 2024);
         ("doctype", VNull);
         ("field_level", num 1);
         ("field_score_min", VNum (mkNumber 3 1));
         ("top_k", num 25);
         ("color", VNull);
         ("mark", VStr "bar");
         ("compare", VBool false);
         ("compare_year_from", VNull);
         ("compare_year_to", VNull) ].

Definition field_chart_plan : Value :=
  VObj [ ("chart_type", VStr "papers_by_field");
         ("year_from", num 2020);
         ("year_to", num 2024);
         ("doctype", VNull);
         ("field_level", num 1);
         ("field_score_min", VNum (mkNumber 3 1));
         ("top_k", num 25);
         ("color", VNull);
         ("mark", VStr "bar");
         ("compare", VBool false);
         ("compare_year_from", VNull);
         ("compare_year_to", VNull) ].

(** [loadYearChart] up to the [await]. *)
Definition loadYearChart_start (s : State) : State * Request :=
  let b := VObj [ ("year_from", num 2020); ("year_to", num 2024) ] in
  post_start "/api/chart/papers_by_year" b s.

(** [loadYearChart] after it ([inputRef.current?.focus()] touches no state). *)
Definition loadYearChart_settle (r : FetchResult) (s : State) : State :=
  match post_result r with
  | inr j =>
      let s := setSpec (get j "vegaLiteSpec") s in
      let s := setData (or_else (get j "data") VNull) s in
      let s := setSelected VNull s in
      setPlan year_chart_plan s
  | inl e => setErr (error_text e) s
  end.

Definition loadFieldChart_start (s : State) : State * Request :=
  let b := VObj [ ("year_from", num 2020);
                  ("year_to", num 2024);
                  ("field_level", num 1);
                  ("field_score_min", VNum (mkNumber 3 1));
                  ("top_k", num 25) ] in
  post_start "/api/chart/papers_by_field" b s.

Definition loadFieldChart_settle (r : FetchResult) (s : State) : State :=
  match post_result r with
  | inr j =>
      let s := setSpec (get j "vegaLiteSpec") s in
      let s := setData (or_else (get j "data") VNull) s in
      let s := setSelected VNull s in
      setPlan field_chart_plan s
  | inl e => setErr (error_text e) s
  end.

(** *** [send] *)

(** [send] up to the [await].  [c] is the render whose [send] is called: the
    function reads [input], [sending] and [plan] from it; the setters act on
    the latest state [s].  The result is the new state and the request, when
    one is issued. *)
Definition send_start (c s : State) : State * option Request :=
  let text := trim (input c) in
  if negb (truthy (VStr text)) || sending c then (s, None)
  else
    let s := setSending true s in
    let s := setMessages (fun m => (m ++ [mkMessage user (VStr text)])%list) s in
    let s := setInput EmptyString s in
    let (s, rq) :=
      post_start "/api/chat" (VObj [ ("message", VStr text); ("prev_plan", plan c) ]) s in
    (s, Some rq).

(** [send] after the [await]: the [try] body or the [catch], then [finally]. *)
Definition send_settle (r : FetchResult) (s : State) : State :=
  let s :=
    match post_result r with
    | inr j =>
        let s := setMessages
                   (fun m => (m ++ [mkMessage assistant (or_else (get j "answer") (VStr "OK"))])%list) s in
        let s := if truthy (get j "vegaLiteSpec") then setSpec (get j "vegaLiteSpec") s else s in
        let s := if truthy (get j "data") then setData (get j "data") s else s in
        let s := if truthy (get j "plan") then setPlan (get j "plan") s else s in
        setSelected VNull s
    | inl e => setErr (error_text e) s
    end in
  setSending false s.

(** *** Selection *)

(** The listener of the signal [pick]; [active] is its variable of that name. *)
Definition handler (active : bool) (value : Value) (s : State) : State :=
  if negb active then s
  else if negb (truthy value) then setSelected VNull s
  else setSelected value s.

Definition selectionSummary (s : State) : Value :=
  if negb (truthy (selected s)) then VNull
  else
    let keys := Object_keys (or_else (selected s) (VObj [])) in
    if (List.length keys =? 0)%nat then VNull
    else selected s.

(** The message [quickAskFromSelection] passes to [setInput], if it gets
    that far; [sel] is [selectionSummary] and [p] is [plan]. *)
Definition follow_up (sel p : Value) : option string :=
  if negb (truthy sel) || negb (truthy p) then None
  else if strict_eq_str (prop p "chart_type") "papers_by_year" then
    let year := js_String (prop sel "year") in
    let group := prop sel "group" in
    Some (if truthy group
          then "show me the number of papers by year from " ++ year ++ " to " ++ year
               ++ " and compare " ++ js_String (prop p "year_from") ++ "-"
               ++ js_String (prop p "year_to") ++ " vs "
               ++ js_String (prop p "compare_year_from") ++ "-"
               ++ js_String (prop p "compare_year_to")
          else "show me the number of papers by year from " ++ year ++ " to " ++ year)%string
  else if strict_eq_str (prop p "chart_type") "papers_by_field" then
    let field := prop sel "field" in
    if negb (truthy field) then None
    else
      Some (if truthy (prop p "compare")
            then "show me papers by field from " ++ js_String (prop p "year_from") ++ " to "
                 ++ js_String (prop p "year_to") ++ " and compare "
                 ++ js_String (prop p "year_from") ++ "-" ++ js_String (prop p "year_to")
                 ++ " vs " ++ js_String (prop p "compare_year_from") ++ "-"
                 ++ js_String (prop p "compare_year_to")
                 ++ ", top_k " ++ js_String (prop p "top_k")
                 ++ ", field_score_min " ++ js_String (prop p "field_score_min")
                 ++ ", field_level " ++ js_String (prop p "field_level")
            else "show me papers by field from " ++ js_String (prop p "year_from") ++ " to "
                 ++ js_String (prop p "year_to")
                 ++ ", top_k " ++ js_String (prop p "top_k")
                 ++ ", field_score_min " ++ js_String (prop p "field_score_min")
                 ++ ", field_level " ++ js_String (prop p "field_level"))%string
  else None.

(** [quickAskFromSelection], called on the render [c]. *)
Definition quickAskFromSelection (c s : State) : State :=
  match follow_up (selectionSummary c) (plan c) with
  | Some msg => setInput msg s
  | None => s
  end.

End App.

(* ================================================================== *)
(** ** The event loop around [App] *)
(* ================================================================== *)

Module Session.
Import JS App.

Inductive Chart := YearChart | FieldChart.

(** The component between two events: the state cells with every update
    made so far, the state of the render that is on screen, whose handlers
    the next event calls and whose values their closures hold, and the
    requests that have not settled. *)
Record World := mkWorld {
  app : State;
  shown : State;
  chat : list Request;              (* requests to /api/chat *)
  charts : list (Chart * Request)   (* requests to /api/chart/... *)
}.

Definition init : World := mkWorld App.init App.init [] [].

Inductive Event :=
| Typed (s : string)                        (* [onChange] of the input *)
| Send                                      (* the Send button, or Enter *)
| ChatSettles (r : FetchResult)             (* the oldest chat request settles *)
| QuickYear                                 (* Quick: Papers by Year *)
| QuickField                                (* Quick: Papers by Field *)
| ChartSettles (i : nat) (r : FetchResult)  (* the [i]-th chart request settles *)
| Picked (value : Value)                    (* the signal [pick] fires *)
| Clear                                     (* the Clear button *)
| UseAsFollowUp                             (* the follow-up button *)
| ViewChanged (v : option nat)              (* [onView] *)
| Rendered.                                 (* React renders the latest state *)

Fixpoint remove_nth {A : Type} (i : nat) (l : list A) : list A :=
  match l, i with
  | [], _ => []
  | _ :: l', O => l'
  | x :: l', S i' => x :: remove_nth i' l'
  end.

(** One event.  A handler reads the values of the render it was created
    in, [shown w], and its setters act on the latest state, [app w]; the
    continuation of a request reads nothing and acts on the latest state.
    [Rendered] is React rendering again, after which the handlers hold the
    latest state; React does so after the handler of an event returns, so a
    trace in which it is missing between two events stands for calls made
    before React rendered. *)
Definition step (e : Event) (w : World) : World :=
  let s := app w in
  let c := shown w in
  match e with
  | Typed t => mkWorld (setInput t s) c (chat w) (charts w)
  | Send =>
      match send_start c s with
      | (s', Some rq) => mkWorld s' c (chat w ++ [rq]) (charts w)
      | (s', None) => mkWorld s' c (chat w) (charts w)
      end
  | ChatSettles r =>
      match chat w with
      | [] => w
      | _ :: rest => mkWorld (send_settle r s) c rest (charts w)
      end
  | QuickYear =>
      let (s', rq) := loadYearChart_start s in
      mkWorld s' c (chat w) (charts w ++ [(YearChart, rq)])
  | QuickField =>
      let (s', rq) := loadFieldChart_start s in
      mkWorld s' c (chat w) (charts w ++ [(FieldChart, rq)])
  | ChartSettles i r =>
      match nth_error (charts w) i with
      | Some (YearChart, _) =>
          mkWorld (loadYearChart_settle r s) c (chat w) (remove_nth i (charts w))
      | Some (FieldChart, _) =>
          mkWorld (loadFieldChart_settle r s) c (chat w) (remove_nth i (charts w))
      | None => w
      end
  | Picked value =>
      match view c with
      | Some _ => mkWorld (handler true value s) c (chat w) (charts w)
      | None => w
      end
  | Clear => mkWorld (setSelected VNull s) c (chat w) (charts w)
  | UseAsFollowUp => mkWorld (quickAskFromSelection c s) c (chat w) (charts w)
  | ViewChanged v => mkWorld (setView v s) c (chat w) (charts w)
  | Rendered => mkWorld s s (chat w) (charts w)
  end.

(** The events of a trace, oldest first. *)
Definition run (evs : list Event) (w : World) : World :=
  fold_left (fun w e => step e w) evs w.

End Session.

(* ================================================================== *)
(** ** What the specification says, in its own words *)
(* ================================================================== *)

Module Spec.
Import JS.

(** The text of a cell before quoting: nothing for [null] and [undefined]. *)
Definition cell_text (v : Value) : string :=
  match v with
  | VNull | VUndefined => EmptyString
  | _ => js_String v
  end.

Definition contains (c : ascii) (s : string) : Prop :=
  In c (list_ascii_of_string s).

(** A cell is quoted when it contains a comma, a quote or a line break. *)
Definition needs_quoting (s : string) : Prop :=
  contains ","%char s \/ contains dquote s \/ contains LF s \/ contains CR s.

(** Embedded quotes are doubled. *)
Definition double_quotes (s : string) : string :=
  string_of_list_ascii
    (flat_map (fun c => if Ascii.eqb c dquote then [dquote; dquote] else [c])
       (list_ascii_of_string s)).

(** The inverse reading: every pair of quotes stands for one quote. *)
Fixpoint undouble (s : string) : string :=
  match s with
  | String c (String d r as t) =>
      if Ascii.eqb c dquote && Ascii.eqb d dquote then String dquote (undouble r)
      else String c (undouble t)
  | _ => s
  end.

(** The row of a record under a header: one cell per header key, which is
    the cell of the record's own value under that key and, when the record
    has none, the cell of what it inherits under that name, empty when it
    inherits nothing. *)
Definition row_cells (keys : list string) (r : Obj) : list string :=
  map (fun k =>
         match own_property r k with
         | Some v => Csv.escapeCsvCell v
         | None => Csv.escapeCsvCell (Object_prototype k)
         end) keys.

(** The key is the name of no member of [Object.prototype]. *)
Definition plain_key (k : string) : Prop := Object_prototype k = VUndefined.

(** A dataset on which [toCsv] shows what a record inherits: the second
    record has no key constructor. *)
Definition inheriting_rows : list Obj :=
  [ [ ("constructor", VStr "x"); ("n", VNum (int 1)) ];
    [ ("n", VNum (int 2)) ] ].

(** The value of the specification's example: a, comma, quote, b, quote,
    line feed, c. *)
Definition sample_cell : string :=
  ("a," ++ str1 dquote ++ "b" ++ str1 dquote ++ str1 LF ++ "c")%string.

(** The dataset of the specification's example. *)
Definition sample_rows : list Obj :=
  [ [ ("year", VNum (int 2020)); ("count", VNum (int 5)) ];
    [ ("year", VNum (int 2021)); ("count", VNum (int 9)) ] ].

(** *** Sessions *)

Import App.

(** The chat call throws, or returns a status outside 200..299. *)
Definition chat_call_fails (r : FetchResult) : Prop :=
  match r with
  | FetchRejects _ => True
  | FetchResponse status _ => ok status = false
  end.

(** [send] from the latest render, with nothing between the call and the
    moment the request settles. *)
Definition submit (r : FetchResult) (s : State) : State :=
  send_settle r (fst (send_start s s)).

(** Turn History, Plan, specification and dataset of [s'] are those of [s]. *)
Definition left_unchanged (s s' : State) : Prop :=
  messages s' = messages s /\ plan s' = plan s /\
  spec s' = spec s /\ data s' = data s.

(** The text is not blank and no submission is in flight. *)
Definition accepted (s : State) : Prop :=
  truthy (VStr (trim (input s))) = true /\ sending s = false.

(** The documented defaults of a quick chart. *)
Definition canonical_defaults (chart_type : string) (p : Value) : Prop :=
  prop p "chart_type" = VStr chart_type /\
  prop p "year_from" = num 2020 /\
  prop p "year_to" = num 2024 /\
  prop p "field_level" = num 1 /\
  prop p "field_score_min" = VNum (mkNumber 3 1) /\
  prop p "top_k" = num 25 /\
  prop p "mark" = VStr "bar" /\
  prop p "compare" = VBool false /\
  prop p "compare_year_from" = VNull /\
  prop p "compare_year_to" = VNull.

(** A response that parses to an object, under a status in 200..299. *)
Definition sample_response : FetchResult :=
  FetchResponse 200
    (inr [ ("vegaLiteSpec", VObj [ ("mark", VStr "line") ]);
           ("plan", VObj [ ("chart_type", VStr "papers_by_field"); ("top_k", num 3) ]) ]).

(** The current Selection, as the rest of the component reads it. *)
Definition Selection (s : State) : Value := selectionSummary s.

End Spec.

(* ================================================================== *)
(** ** Invariants *)
(* ================================================================== *)

Module MountInvariant.
Import VegaView.
Local Open Scope nat_scope.

(** What holds of the session after every trace. *)
Record inv (s : Session) : Prop := mkInv {
  inv_current : forall g, current s = Some g -> g = generation s;
  inv_pending : forall g, In g (pending s) -> g <= generation s;
  inv_stale : forall g, In g (pending s) -> current s <> Some g -> In g (canceled s);
  inv_unseen : forall g, In g (pending s) -> view s <> Some g /\ viewRef s <> Some g;
  inv_view : forall g, view s = Some g -> current s = Some g;
  inv_live : forall g, current s = Some g -> ~ In g (canceled s);
  inv_canceled : forall g, In g (canceled s) -> g <= generation s
}.

(** Run [m] has settled and a later run exists: [m] is no longer waiting,
    is not what [App] holds, and is not the latest run. *)
Definition superseded (m : nat) (s : Session) : Prop :=
  ~ In m (pending s) /\ view s <> Some m /\ m < generation s.

(** A run that has settled does not wait again. *)
Definition settled (m : nat) (s : Session) : Prop :=
  ~ In m (pending s) /\ m <= generation s.

End MountInvariant.

Module FlightInvariant.
Import App Session.

(** The render on screen is the latest one, [sending] is true exactly while
    one chat request has not settled, and there is never more than one. *)
Definition inv (w : World) : Prop :=
  shown w = app w /\
  ((sending (app w) = false /\ chat w = []) \/
   (sending (app w) = true /\ exists rq, chat w = [rq])).

(** The trace in which React renders after every event. *)
Definition rendering (evs : list Event) : list Event :=
  flat_map (fun e => [e; Rendered]) evs.

End FlightInvariant.

(* ================================================================== *)
(** ** Downloads *)
(* ================================================================== *)

Module Downloads.
Import JS Csv App.

(** [s.split(c)] for a one-character separator: never an empty array. *)
Fixpoint split (sep : ascii) (s : string) : list string :=
  match s with
  | EmptyString => [EmptyString]
  | String c r =>
      if Ascii.eqb c sep then EmptyString :: split sep r
      else
        match split sep r with
        | [] => [str1 c]
        | x :: xs => String c x :: xs
        end
  end.

(** [pat] stands at the start of [s]. *)
Fixpoint starts_with (pat s : string) : bool :=
  match pat, s with
  | EmptyString, _ => true
  | String _ _, EmptyString => false
  | String a p, String b r => Ascii.eqb a b && starts_with p r
  end.

Fixpoint skip (n : nat) (s : string) : string :=
  match n, s with
  | O, _ => s
  | S _, EmptyString => EmptyString
  | S n', String _ r => skip n' r
  end.

(** The characters that the dot of a regular expression refuses. *)
Definition line_terminator (c : ascii) : bool := Ascii.eqb c LF || Ascii.eqb c CR.

(** The lazy group of the expression followed by [;base64], matched at the
    start of [s]: the shortest run of characters that are not line
    terminators and after which [;base64] stands. *)
Fixpoint lazy_group (s : string) : option string :=
  if starts_with ";base64" s then Some EmptyString
  else
    match s with
    | EmptyString => None
    | String c r =>
        if line_terminator c then None
        else
          match lazy_group r with
          | Some g => Some (String c g)
          | None => None
          end
    end.

(** [s.match(re)[1]] for the expression [data:(.*?);base64] of
    [dataUrlToBlob]: the match that starts leftmost, if there is one. *)
Fixpoint match_mime (s : string) : option string :=
  match (if starts_with "data:" s then lazy_group (skip 5 s) else None) with
  | Some g => Some g
  | None =>
      match s with
      | EmptyString => None
      | String _ r => match_mime r
      end
  end.

(** The arguments of [new Blob([arr], { type })]: the bytes of the one part
    and the type asked for. *)
Record Blob := mkBlob { bytes : list nat; type : string }.

Section DataUrl.

(** [atob] of the platform: the decoded text, or the error it throws. *)
Variable atob : string -> JsError + string.

(** [dataUrlToBlob(dataUrl)]; a missing second part reaches [atob] as the
    text of [undefined]. *)
Definition dataUrlToBlob (dataUrl : string) : JsError + Blob :=
  let parts := split ","%char dataUrl in
  let meta := nth 0 parts EmptyString in
  let b64 :=
    match nth_error parts 1 with
    | Some b => b
    | None => js_String VUndefined
    end in
  let mime :=
    match match_mime meta with
    | Some m => m
    | None => "application/octet-stream"
    end in
  match atob b64 with
  | inl e => inl e
  | inr decoded => inr (mkBlob (map nat_of_ascii (list_ascii_of_string decoded)) mime)
  end.

End DataUrl.

(** The call that a download handler ends with, once past its guard: the
    file name and the other argument of [downloadJson(filename, obj)], of
    [downloadCsv(filename, rows)] or of [downloadBlob(filename, blob)].
    Whether [downloadCsv] then gets as far as [downloadBlob] is what
    [downloadCsv] below says: its [toCsv] can throw. *)
Inductive Content :=
| JsonOf (obj : Value)        (* [downloadJson]: the object to serialize *)
| CsvOf (rows : list Value)   (* [downloadCsv]: the rows given to [toCsv] *)
| BlobOf (b : Blob).          (* [downloadBlob]: the blob itself *)

Record Download := mkDownload { filename : string; content : Content }.

Section CsvOfValues.

(** [r[h]] on an array, a string, a number, a boolean or a function: what
    the platform's prototype of that kind of value gives. *)
Variable builtin : Value -> string -> Value.

(** [r[h]] on any value; [None] is the TypeError of a read on [null] or
    [undefined]. *)
Definition member (r : Value) (h : string) : option Value :=
  match r with
  | VNull | VUndefined => None
  | VObj o => Some (lookup o h)
  | _ => Some (builtin r h)
  end.

(** [headers.map((h) => escapeCsvCell(r[h]))]; [None] when a read throws. *)
Fixpoint cells (r : Value) (headers : list string) : option (list string) :=
  match headers with
  | [] => Some []
  | h :: hs =>
      match member r h with
      | None => None
      | Some v =>
          match cells r hs with
          | None => None
          | Some cs => Some (escapeCsvCell v :: cs)
          end
      end
  end.

(** The lines pushed by the loop of [toCsv]; [None] when a read throws. *)
Fixpoint row_lines (rows : list Value) (headers : list string) : option (list string) :=
  match rows with
  | [] => Some []
  | r :: rs =>
      match cells r headers with
      | None => None
      | Some cs =>
          match row_lines rs headers with
          | None => None
          | Some ls => Some (String.concat "," cs :: ls)
          end
      end
  end.

(** [toCsv(rows)] on an array of any values; [None] is a TypeError, thrown
    by [Object.keys] on a first row that is [null] or [undefined] or by the
    read of a key on such a row. *)
Definition toCsv_values (rows : list Value) : option string :=
  match rows with
  | [] => Some EmptyString
  | VNull :: _ | VUndefined :: _ => None
  | r0 :: _ =>
      let headers := Object_keys r0 in
      match row_lines rows headers with
      | None => None
      | Some ls =>
          Some (String.concat (str1 LF)
                  (String.concat "," (map (fun h => escapeCsvCell (VStr h)) headers) :: ls))
      end
  end.

(** [downloadCsv(filename, rows)]: the file name and the text that reach
    [downloadBlob] as a blob of type text/csv, or [None] when [toCsv]
    throws, in which case nothing is delivered. *)
Definition downloadCsv (filename : string) (rows : list Value) : option (string * string) :=
  match toCsv_values rows with
  | Some csv => Some (filename, csv)
  | None => None
  end.

End CsvOfValues.

(** The records of an array whose elements are all plain objects. *)
Fixpoint records (l : list Value) : option (list Obj) :=
  match l with
  | [] => Some []
  | VObj o :: l' =>
      match records l' with
      | Some rs => Some (o :: rs)
      | None => None
      end
  | _ :: _ => None
  end.

Definition downloadCurrentDataJson (s : State) : option Download :=
  if negb (truthy (plan s)) || negb (truthy (data s)) then None
  else
    let filename :=
      (js_String (or_else (prop (plan s) "chart_type") (VStr "chart")) ++ "_"
       ++ js_String (or_else (prop (plan s) "year_from") (VStr EmptyString)) ++ "-"
       ++ js_String (or_else (prop (plan s) "year_to") (VStr EmptyString))
       ++ "_data.json")%string in
    Some (mkDownload filename (JsonOf (VObj [ ("plan", plan s); ("data", data s) ]))).

Definition Array_isArray (v : Value) : bool :=
  match v with
  | VArr _ => true
  | _ => false
  end.

(** The elements of an array ([data.length] is their number). *)
Definition elements (v : Value) : list Value :=
  match v with
  | VArr l => l
  | _ => []
  end.

Definition downloadCurrentDataCsv (s : State) : option Download :=
  if negb (truthy (plan s)) || negb (truthy (data s))
     || negb (Array_isArray (data s)) || (List.length (elements (data s)) =? 0)%nat
  then None
  else
    let filename :=
      (js_String (or_else (prop (plan s) "chart_type") (VStr "chart")) ++ "_"
       ++ js_String (or_else (prop (plan s) "year_from") (VStr EmptyString)) ++ "-"
       ++ js_String (or_else (prop (plan s) "year_to") (VStr EmptyString))
       ++ "_data.csv")%string in
    Some (mkDownload filename (CsvOf (elements (data s)))).

Definition downloadCurrentSpecJson (s : State) : option Download :=
  if negb (truthy (plan s)) || negb (truthy (spec s)) then None
  else
    let filename :=
      (js_String (or_else (prop (plan s) "chart_type") (VStr "chart")) ++ "_"
       ++ js_String (or_else (prop (plan s) "year_from") (VStr EmptyString)) ++ "-"
       ++ js_String (or_else (prop (plan s) "year_to") (VStr EmptyString))
       ++ "_vegaLiteSpec.json")%string in
    Some (mkDownload filename (JsonOf (VObj [ ("plan", plan s); ("vegaLiteSpec", spec s) ]))).

(** [downloadCurrentPng] up to [await view.toImageURL]: the view it asks. *)
Definition downloadCurrentPng_start (s : State) : option nat :=
  if negb (truthy (plan s)) then None else view s.

(** [downloadCurrentPng] after it, for the call made on the render [c]:
    [r] is the data URL or the error of [toImageURL]. *)
Definition downloadCurrentPng_settle (atob : string -> JsError + string)
    (r : JsError + string) (c s : State) : State * option Download :=
  match r with
  | inl e => (setErr (error_text e) s, None)
  | inr dataUrl =>
      match dataUrlToBlob atob dataUrl with
      | inl e => (setErr (error_text e) s, None)
      | inr blob =>
          let filename :=
            (js_String (or_else (prop (plan c) "chart_type") (VStr "chart")) ++ "_"
             ++ js_String (or_else (prop (plan c) "year_from") (VStr EmptyString)) ++ "-"
             ++ js_String (or_else (prop (plan c) "year_to") (VStr EmptyString))
             ++ ".png")%string in
          (s, Some (mkDownload filename (BlobOf blob)))
      end
  end.

(** The flags that enable the buttons. *)
Definition canDownload (s : State) : bool := truthy (plan s) && truthy (spec s).

Definition canDownloadData (s : State) : bool :=
  truthy (plan s) && truthy (data s) && Array_isArray (data s)
  && (0 <? List.length (elements (data s)))%nat.

Definition canDownloadPng (s : State) : bool :=
  truthy (plan s) && match view s with Some _ => true | None => false end.

End Downloads.

Module DownloadNames.
Import JS App Downloads.

(** What the four file names have in common: the chart type, or the word
    chart, and the two years, each left out when it is missing or zero. *)
Definition stem (p : Value) : string :=
  (js_String (or_else (prop p "chart_type") (VStr "chart")) ++ "_"
   ++ js_String (or_else (prop p "year_from") (VStr EmptyString)) ++ "-"
   ++ js_String (or_else (prop p "year_to") (VStr EmptyString)))%string.

(** The handler gets past its guard and makes its call. *)
Definition calls (d : option Download) : bool :=
  match d with
  | Some _ => true
  | None => false
  end.

Definition named (d : option Download) (n : string) : Prop :=
  match d with
  | Some x => filename x = n
  | None => True
  end.

(** The character [c] does not occur in [s]. *)
Definition free_of (c : ascii) (s : string) : Prop :=
  ~ In c (list_ascii_of_string s).

End DownloadNames.

Module SessionNotions.
Import JS App Session.

Definition is_user (m : Message) : bool :=
  match role m with
  | user => true
  | assistant => false
  end.

(** The entries of a history written by the user, and by the assistant. *)
Definition by_user (h : list Message) : nat := List.length (filter is_user h).

Definition by_assistant (h : list Message) : nat :=
  List.length (filter (fun m => negb (is_user m)) h).

(** The event is a request that settles with a value. *)
Definition successful_settle (e : Event) : bool :=
  match e with
  | ChatSettles r | ChartSettles _ r =>
      match post_result r with
      | inr _ => true
      | inl _ => false
      end
  | _ => false
  end.

(** Assistant entries and unsettled chat requests never outnumber the
    user's entries. *)
Definition answered (w : World) : Prop :=
  (by_assistant (messages (app w)) + List.length (chat w)
   <= by_user (messages (app w)))%nat.

(** [n] line feeds. *)
Fixpoint line_feeds (n : nat) : string :=
  match n with
  | O => EmptyString
  | S n' => String LF (line_feeds n')
  end.

(** Every character of [s] is white space. *)
Definition blank (s : string) : Prop :=
  forall c, In c (list_ascii_of_string s) -> is_space c = true.

(** What differs between two states is at most [input]. *)
Definition same_but_input (s s' : State) : Prop :=
  spec s' = spec s /\ err s' = err s /\ data s' = data s /\ plan s' = plan s /\
  view s' = view s /\ selected s' = selected s /\ messages s' = messages s /\
  sending s' = sending s.

End SessionNotions.

Module MountNotions.
Import VegaView.
Local Open Scope nat_scope.

(** The bookkeeping of views after every trace. *)
Record tidy (s : Session) : Prop := mkTidy {
  tidy_same : view s = viewRef s;
  tidy_final : forall g, In g (finalized s) ->
                 ~ In g (pending s) /\ view s <> Some g /\ g <= generation s;
  tidy_once : NoDup (finalized s)
}.

(** The view of run [g] is held by [App] or has been finalized. *)
Definition accounted (g : nat) (s : Session) : Prop :=
  view s = Some g \/ In g (finalized s).

(** Nothing is mounted and nothing is published. *)
Definition unmounted (s : Session) : Prop :=
  current s = None /\ view s = None.

Definition is_mount (e : Event) : bool :=
  match e with
  | Mount _ _ => true
  | _ => false
  end.

End MountNotions.

(* ================================================================== *)
(** ** Reading CSV text back *)
(* ================================================================== *)

Module CsvReader.
Import JS.

(** Where a reader of comma-separated text stands: at the start of a field,
    inside a field without quotes, inside a quoted field, or just after a
    quote met inside a quoted field. *)
Inductive Mode := FieldStart | Plain | Quoted | QuoteSeen.

(** The rows of a text: fields are separated by commas and rows by line
    feeds; a field that starts with a quote runs to its closing quote, and a
    pair of quotes inside it stands for one quote.  [field] and [row] are
    what has been read of the current field and row. *)
Fixpoint read (m : Mode) (field : string) (row : list string) (s : string)
  : list (list string) :=
  match s with
  | EmptyString => [(row ++ [field])%list]
  | String c r =>
      match m with
      | Quoted =>
          if Ascii.eqb c dquote then read QuoteSeen field row r
          else read Quoted (field ++ str1 c)%string row r
      | QuoteSeen =>
          if Ascii.eqb c dquote then read Quoted (field ++ str1 dquote)%string row r
          else if Ascii.eqb c ","%char then read FieldStart EmptyString (row ++ [field])%list r
          else if Ascii.eqb c LF then (row ++ [field])%list :: read FieldStart EmptyString [] r
          else read Plain (field ++ str1 c)%string row r
      | FieldStart =>
          if Ascii.eqb c dquote then read Quoted field row r
          else if Ascii.eqb c ","%char then read FieldStart EmptyString (row ++ [field])%list r
          else if Ascii.eqb c LF then (row ++ [field])%list :: read FieldStart EmptyString [] r
          else read Plain (field ++ str1 c)%string row r
      | Plain =>
          if Ascii.eqb c ","%char then read FieldStart EmptyString (row ++ [field])%list r
          else if Ascii.eqb c LF then (row ++ [field])%list :: read FieldStart EmptyString [] r
          else read Plain (field ++ str1 c)%string row r
      end
  end.

Definition read_csv (s : string) : list (list string) :=
  read FieldStart EmptyString [] s.

(** The table a dataset stands for: the keys of the first record, then for
    each record the texts of what [r[k]] reads under those keys (the own
    value, else the inherited member, else nothing). *)
Definition table (r0 : Obj) (rows : list Obj) : list (list string) :=
  map fst r0
  :: map (fun r => map (fun k => Spec.cell_text (lookup r k)) (map fst r0)) rows.

End CsvReader.

(* ================================================================== *)
(** ** The listener of the signal pick *)
(* ================================================================== *)

Module PickChannel.
Import JS App.

(** The effect of [App] that depends on [view], with the listeners the views
    hold.  Effect runs are numbered; each has its own [active] variable and
    its own [handler]. *)
Record Channel := mkChannel {
  app : State;
  runs : nat;                      (* effect runs so far *)
  installed : option (nat * nat);  (* the run whose cleanup is installed, and its view *)
  active : list nat;               (* runs whose [active] is true *)
  attached : list (nat * nat)      (* (view, run): the listeners that views hold *)
}.

Definition init : Channel := mkChannel App.init 0 None [] [].

Inductive Event :=
| SetView (v : option nat) (removes adds : bool)
    (* [onView(v)]; whether [removeSignalListener] and [addSignalListener]
       return rather than throw *)
| Emit (v : nat) (value : Value).   (* the view [v] fires the signal *)

Definition same_view (a b : option nat) : bool :=
  match a, b with
  | Some x, Some y => Nat.eqb x y
  | None, None => true
  | _, _ => false
  end.

Definition same_listener (a b : nat * nat) : bool :=
  Nat.eqb (fst a) (fst b) && Nat.eqb (snd a) (snd b).

(** The function the effect returns, for run [n] on view [v]. *)
Definition cleanup (n v : nat) (removes : bool) (c : Channel) : Channel :=
  mkChannel (app c) (runs c) (installed c)
    (filter (fun m => negb (Nat.eqb n m)) (active c))
    (if removes
     then filter (fun l => negb (same_listener (v, n) l)) (attached c)
     else attached c).

(** The body of the effect for the view [v]. *)
Definition effect (v : option nat) (adds : bool) (c : Channel) : Channel :=
  match v with
  | None => mkChannel (app c) (runs c) None (active c) (attached c)
  | Some x =>
      let n := S (runs c) in
      mkChannel (app c) n (Some (n, x)) (n :: active c)
        (if adds then (x, n) :: attached c else attached c)
  end.

(** The listeners of [v] are called in turn, each with its own [active]. *)
Definition emit (v : nat) (value : Value) (c : Channel) : State :=
  fold_left
    (fun s l =>
       if Nat.eqb (fst l) v
       then handler (existsb (Nat.eqb (snd l)) (active c)) value s
       else s)
    (attached c) (app c).

Definition step (e : Event) (c : Channel) : Channel :=
  match e with
  | SetView v removes adds =>
      if same_view v (view (app c)) then c
      else
        let c := mkChannel (setView v (app c)) (runs c) (installed c)
                   (active c) (attached c) in
        let c :=
          match installed c with
          | Some (n, v0) => cleanup n v0 removes c
          | None => c
          end in
        effect v adds c
  | Emit v value =>
      mkChannel (emit v value c) (runs c) (installed c) (active c) (attached c)
  end.

Definition run (evs : list Event) (c : Channel) : Channel :=
  fold_left (fun c e => step e c) evs c.

(** What holds of the channel after every trace. *)
Record inv (c : Channel) : Prop := mkInv {
  inv_installed : forall n v, installed c = Some (n, v) -> view (app c) = Some v /\ n = runs c;
  inv_active : forall n, In n (active c) -> exists v, installed c = Some (n, v);
  inv_attached : forall v n, In (v, n) (attached c) -> (n <= runs c)%nat;
  inv_owner : forall v n, In (v, n) (attached c) -> In n (active c) ->
                          installed c = Some (n, v);
  inv_on : forall n v, installed c = Some (n, v) -> In n (active c)
}.

(** The listener [l] belongs to the view [v] and its run is active. *)
Definition hears (v : nat) (c : Channel) (l : nat * nat) : bool :=
  Nat.eqb (fst l) v && existsb (Nat.eqb (snd l)) (active c).

End PickChannel.

(* ================================================================== *)
(** ** Properties of the CSV export *)
(* ================================================================== *)

Section CsvFacts.
Import JS Csv Spec.

Example num_to_string_samples :
  num_to_string (int 2020) = "2020" /\
  num_to_string (int (-5)) = "-5" /\
  num_to_string (int 0) = "0" /\
  num_to_string (mkNumber 3 1) = "0.3" /\
  num_to_string (mkNumber (-1250) 2) = "-12.5" /\
  js_String (VArr [VNum (int 1); VNull; VStr "x"]) = "1,,x" /\
  trim "  a b  " = "a b".
Proof. repeat split. Qed.

Lemma length_append (s t : string) :
  String.length (s ++ t) = (String.length s + String.length t)%nat.
Proof. induction s as [|c r IH]; simpl; [reflexivity | now rewrite IH]. Qed.

Lemma test_class_In (cls : ascii -> bool) (s : string) :
  test_class cls s = true <->
  exists c, In c (list_ascii_of_string s) /\ cls c = true.
Proof.
  induction s as [|d r IH]; simpl.
  - split; [discriminate | intros (c & [] & _)].
  - rewrite orb_true_iff, IH. split.
    + intros [Hd | (c & Hc & Hcls)].
      * exists d; auto.
      * exists c; auto.
    + intros (c & [<- | Hc] & Hcls); [now left | right; now exists c].
Qed.

Lemma csv_special_cases (c : ascii) :
  csv_special c = true <-> c = ","%char \/ c = dquote \/ c = LF \/ c = CR.
Proof.
  unfold csv_special. rewrite !orb_true_iff, !Ascii.eqb_eq. tauto.
Qed.

Lemma test_special_needs_quoting (s : string) :
  test_class csv_special s = true <-> needs_quoting s.
Proof.
  rewrite test_class_In. unfold needs_quoting, contains. split.
  - intros (c & Hin & Hc). apply csv_special_cases in Hc.
    destruct Hc as [-> | [-> | [-> | ->]]]; tauto.
  - intros [H | [H | [H | H]]]; eexists; (split; [exact H | reflexivity]).
Qed.

Lemma replace_all_double_quotes (s : string) :
  replace_all dquote (String dquote (str1 dquote)) s = double_quotes s.
Proof.
  unfold double_quotes.
  induction s as [|d r IH]; simpl; [reflexivity|].
  rewrite IH. destruct (Ascii.eqb d dquote); reflexivity.
Qed.

Lemma undouble_other (c : ascii) (s : string) :
  Ascii.eqb c dquote = false -> undouble (String c s) = String c (undouble s).
Proof.
  intros E. destruct s as [|d r]; [reflexivity|].
  change (undouble (String c (String d r)))
    with (if Ascii.eqb c dquote && Ascii.eqb d dquote
          then String dquote (undouble r)
          else String c (undouble (String d r))).
  now rewrite E.
Qed.

Lemma undouble_pair (s : string) :
  undouble (String dquote (String dquote s)) = String dquote (undouble s).
Proof. reflexivity. Qed.

(** Quoting loses nothing: undoing the doubling gives the text back. *)
Lemma undouble_double_quotes (s : string) :
  undouble (double_quotes s) = s.
Proof.
  unfold double_quotes.
  induction s as [|d r IH]; [reflexivity|].
  cbn [list_ascii_of_string flat_map].
  destruct (Ascii.eqb d dquote) eqn:E.
  - apply Ascii.eqb_eq in E. subst d.
    cbn [app string_of_list_ascii].
    now rewrite undouble_pair, IH.
  - cbn [app string_of_list_ascii].
    now rewrite (undouble_other _ _ E), IH.
Qed.

Lemma escapeCsvCell_plain (v : Value) :
  ~ needs_quoting (cell_text v) -> escapeCsvCell v = cell_text v.
Proof.
  intros H. rewrite <- test_special_needs_quoting in H.
  apply not_true_is_false in H.
  unfold escapeCsvCell. fold (cell_text v). now rewrite H.
Qed.

Lemma escapeCsvCell_quoted (v : Value) :
  needs_quoting (cell_text v) ->
  escapeCsvCell v
  = (str1 dquote ++ double_quotes (cell_text v) ++ str1 dquote)%string.
Proof.
  intros H. rewrite <- test_special_needs_quoting in H.
  unfold escapeCsvCell. fold (cell_text v).
  now rewrite H, replace_all_double_quotes.
Qed.

Lemma needs_quoting_dec (s : string) : needs_quoting s \/ ~ needs_quoting s.
Proof.
  rewrite <- test_special_needs_quoting.
  destruct (test_class csv_special s); [now left | right; discriminate].
Qed.

(** C6.  For every cell value, [escapeCsvCell] renders [null] and
    [undefined] as the empty string, quotes the text of the cell when it
    contains a comma, a double quote or a line break, doubling every
    embedded quote, and leaves it as it is otherwise; the example value
    [sample_cell] comes out quoted, with both of its quotes doubled. *)
Theorem escapeCsvCell_rule (v : Value) :
  escapeCsvCell VNull = EmptyString /\
  escapeCsvCell VUndefined = EmptyString /\
  (needs_quoting (cell_text v) ->
     escapeCsvCell v
     = (str1 dquote ++ double_quotes (cell_text v) ++ str1 dquote)%string) /\
  (~ needs_quoting (cell_text v) -> escapeCsvCell v = cell_text v) /\
  (escapeCsvCell v = cell_text v <-> ~ needs_quoting (cell_text v)) /\
  escapeCsvCell (VStr sample_cell)
  = (str1 dquote ++ "a," ++ str1 dquote ++ str1 dquote ++ "b"
     ++ str1 dquote ++ str1 dquote ++ str1 LF ++ "c" ++ str1 dquote)%string.
Proof.
  repeat split; try reflexivity.
  - apply escapeCsvCell_quoted.
  - apply escapeCsvCell_plain.
  - intros Heq Hq. rewrite (escapeCsvCell_quoted v Hq) in Heq.
    apply (f_equal String.length) in Heq.
    assert (Hlen : forall s, (String.length s <= String.length (double_quotes s))%nat).
    { unfold double_quotes. induction s as [|d r IH]; simpl; [lia|].
      destruct (Ascii.eqb d dquote); simpl; lia. }
    specialize (Hlen (cell_text v)).
    rewrite !length_append in Heq. simpl in Heq. lia.
  - apply escapeCsvCell_plain.
Qed.

End CsvFacts.

Section CsvTable.
Import JS Csv Spec.

Lemma escapeCsvCell_missing (r : Obj) (k : string) :
  own_property r k = None -> plain_key k -> escapeCsvCell (lookup r k) = EmptyString.
Proof. unfold lookup, plain_key. now intros -> ->. Qed.

(** A row of [toCsv] is the row of the record under the header. *)
Lemma row_is_row_cells (keys : list string) (r : Obj) :
  map (fun h => escapeCsvCell (lookup r h)) keys = row_cells keys r.
Proof.
  unfold row_cells. apply map_ext. intros k. unfold lookup.
  destruct (own_property r k); reflexivity.
Qed.

Lemma plain_keys_header (keys : list string) :
  (forall k, In k keys -> ~ needs_quoting k) ->
  map (fun h => escapeCsvCell (VStr h)) keys = keys.
Proof.
  intros H. induction keys as [|k ks IH]; [reflexivity|].
  simpl. rewrite IH by (intros; apply H; now right).
  f_equal. apply (escapeCsvCell_plain (VStr k)). apply H. now left.
Qed.

(** C5.  The code at a dataset whose second record lacks the key
    constructor of the header: the cell of that record under that key is
    not empty, it is the text of the function Object, which every object
    inherits under that name. *)
Theorem toCsv_inherited_member :
  own_property [ ("n", VNum (int 2)) ] "constructor" = None /\
  toCsv inheriting_rows
  = ("constructor,n" ++ str1 LF ++ "x,1" ++ str1 LF
     ++ "function Object() { [native code] },2")%string.
Proof. split; reflexivity. Qed.

(** X21.  For every non-empty dataset [r0 :: rest], [toCsv] is the lines
    joined by line feeds, where the first line is made of the keys of the
    first record in that record's key order (each written as a cell, so
    literally the keys when none of them needs quoting), and there is one
    further line per record, in order, made under that same header: one
    cell per header key and nothing for the keys of the record that the
    header lacks.  The cell of a record that has no such key is empty when
    the key is the name of no member of [Object.prototype].  The two-record
    sample of the specification gives the header year,count and the rows
    2020,5 and 2021,9. *)
Theorem toCsv_header_stability (r0 : Obj) (rest : list Obj) :
  (exists header body,
     toCsv (r0 :: rest) = String.concat (str1 LF) (header :: body) /\
     header = String.concat "," (map (fun k => escapeCsvCell (VStr k)) (map fst r0)) /\
     ((forall k, In k (map fst r0) -> ~ needs_quoting k) ->
        header = String.concat "," (map fst r0)) /\
     List.length body = List.length (r0 :: rest) /\
     (forall i r, nth_error (r0 :: rest) i = Some r ->
        nth_error body i = Some (String.concat "," (row_cells (map fst r0) r)))) /\
  (forall r k, own_property r k = None -> plain_key k ->
     row_cells [k] r = [EmptyString]) /\
  toCsv sample_rows
  = ("year,count" ++ str1 LF ++ "2020,5" ++ str1 LF ++ "2021,9")%string.
Proof.
  split; [|split; [|reflexivity]].
  - eexists. eexists. split; [reflexivity|].
    split; [reflexivity|].
    split.
    + intros H. cbn [Object_keys]. now rewrite plain_keys_header.
    + split.
      * now rewrite length_map.
      * intros i r Hi. cbn [Object_keys].
        rewrite (map_nth_error _ _ _ Hi). now rewrite row_is_row_cells.
  - intros r k Hk Hp. unfold row_cells. cbn [map]. rewrite Hk.
    unfold plain_key in Hp. now rewrite Hp.
Qed.

End CsvTable.

(* ================================================================== *)
(** ** Properties of the handlers of [App] *)
(* ================================================================== *)

Section Handlers.
Import JS App Spec.

Lemma post_result_failure (r : FetchResult) :
  chat_call_fails r -> exists e, post_result r = inl e.
Proof.
  destruct r as [e | status json]; simpl.
  - intros _. now exists e.
  - intros ->. simpl. eauto.
Qed.

Lemma post_result_http (status : Z) (json : JsError + Obj) :
  ok status = false ->
  post_result (FetchResponse status json)
  = inl (mkError "Error" ("HTTP " ++ js_String (num status))).
Proof. simpl. now intros ->. Qed.

(** The settling half of a failed [send] touches [err] and [sending] only. *)
Lemma send_settle_failure (r : FetchResult) (e : JsError) (t : State) :
  post_result r = inl e ->
  send_settle r t
  = mkState (spec t) (error_text e) (data t) (plan t) (view t) (selected t)
      (input t) (messages t) false.
Proof. unfold send_settle. now intros ->. Qed.

Lemma send_start_accepted (s : State) :
  accepted s ->
  send_start s s
  = (mkState (spec s) EmptyString (data s) (plan s) (view s) (selected s)
       EmptyString (messages s ++ [mkMessage user (VStr (trim (input s)))])%list true,
     Some (mkRequest (API ++ "/api/chat")
             (VObj [ ("message", VStr (trim (input s))); ("prev_plan", plan s) ]))).
Proof.
  intros [Ht Hs]. unfold send_start. now rewrite Ht, Hs.
Qed.

(** C1, as stated, fails: after a submission from the initial state that the
    server answers with status 500, Turn History holds the user's message. *)
Lemma send_failure_keeps_user_message :
  accepted App.init /\
  chat_call_fails (FetchResponse 500 (inr [])) /\
  messages (submit (FetchResponse 500 (inr [])) App.init)
  = [mkMessage user (VStr "show me the number of papers by year from 2020 to 2024")] /\
  ~ left_unchanged App.init (submit (FetchResponse 500 (inr [])) App.init).
Proof.
  split; [split; reflexivity|].
  split; [reflexivity|].
  split; [reflexivity|].
  intros (H & _). discriminate H.
Qed.

(** C1, amended.  For every chat submission that fails (the call throws or
    returns a status outside 200..299), [send] surfaces the error in [err] and
    leaves Plan, rendering specification and dataset as they were before the
    call; Turn History is what it was followed by the user's message, which
    [send] appended before the request, and by nothing else.  The settling
    half alone changes none of the four, whatever happened in between. *)
Theorem send_failure_effects (s : State) (r : FetchResult) :
  accepted s -> chat_call_fails r ->
  let s' := submit r s in
  (exists e, post_result r = inl e /\ err s' = error_text e) /\
  plan s' = plan s /\ spec s' = spec s /\ data s' = data s /\
  messages s' = (messages s ++ [mkMessage user (VStr (trim (input s)))])%list /\
  sending s' = false /\
  (forall t, left_unchanged t (send_settle r t)).
Proof.
  intros Hacc Hfail s'.
  destruct (post_result_failure r Hfail) as (e & He).
  subst s'. unfold submit.
  rewrite (send_start_accepted s Hacc). cbn [fst].
  rewrite (send_settle_failure r e _ He). cbn.
  split; [now exists e|].
  repeat (split; [reflexivity|]).
  intros t. rewrite (send_settle_failure r e t He). now repeat split.
Qed.

Lemma send_failure_effects_witness :
  let s' := submit (FetchResponse 500 (inr [])) App.init in
  (exists e, post_result (FetchResponse 500 (inr [])) = inl e /\ err s' = error_text e) /\
  plan s' = plan App.init /\ spec s' = spec App.init /\ data s' = data App.init /\
  messages s'
  = (messages App.init ++ [mkMessage user (VStr (trim (input App.init)))])%list /\
  sending s' = false /\
  (forall t, left_unchanged t (send_settle (FetchResponse 500 (inr [])) t)).
Proof.
  apply (send_failure_effects App.init (FetchResponse 500 (inr []))).
  - split; reflexivity.
  - reflexivity.
Defined.

End Handlers.

Section Turns.
Import JS App Spec.

Example send_failure_http_500 :
  err (submit (FetchResponse 500 (inr [])) App.init) = "HTTP 500".
Proof. reflexivity. Qed.

Lemma loadYearChart_success (r : FetchResult) (j : Obj) (s : State) :
  post_result r = inr j ->
  loadYearChart_settle r s
  = mkState (get j "vegaLiteSpec") (err s) (or_else (get j "data") VNull)
      year_chart_plan (view s) VNull (input s) (messages s) (sending s).
Proof. unfold loadYearChart_settle. now intros ->. Qed.

Lemma loadFieldChart_success (r : FetchResult) (j : Obj) (s : State) :
  post_result r = inr j ->
  loadFieldChart_settle r s
  = mkState (get j "vegaLiteSpec") (err s) (or_else (get j "data") VNull)
      field_chart_plan (view s) VNull (input s) (messages s) (sending s).
Proof. unfold loadFieldChart_settle. now intros ->. Qed.

Lemma year_chart_plan_canonical : canonical_defaults "papers_by_year" year_chart_plan.
Proof. repeat split. Qed.

Lemma field_chart_plan_canonical : canonical_defaults "papers_by_field" field_chart_plan.
Proof. repeat split. Qed.

(** C4.  Every successful [loadYearChart] installs the Plan written in the
    source, which has the documented defaults (chart type papers_by_year,
    years 2020 to 2024, field level 1, field score 0.3, top 25, mark bar,
    no comparison and both comparison bounds null) and, besides them, a null
    doctype and a null color; the response [j] has no part in it, whatever
    plan it carries.  [loadFieldChart] does the same with chart type
    papers_by_field. *)
Theorem quick_load_plan (s : State) (r : FetchResult) (j : Obj) :
  post_result r = inr j ->
  plan (loadYearChart_settle r s) = year_chart_plan /\
  canonical_defaults "papers_by_year" (plan (loadYearChart_settle r s)) /\
  plan (loadFieldChart_settle r s) = field_chart_plan /\
  canonical_defaults "papers_by_field" (plan (loadFieldChart_settle r s)) /\
  Object_keys year_chart_plan
  = [ "chart_type"; "year_from"; "year_to"; "doctype"; "field_level";
      "field_score_min"; "top_k"; "color"; "mark"; "compare";
      "compare_year_from"; "compare_year_to" ] /\
  Object_keys field_chart_plan = Object_keys year_chart_plan /\
  prop year_chart_plan "doctype" = VNull /\ prop year_chart_plan "color" = VNull /\
  prop field_chart_plan "doctype" = VNull /\ prop field_chart_plan "color" = VNull.
Proof.
  intros Hj.
  rewrite (loadYearChart_success r j s Hj), (loadFieldChart_success r j s Hj).
  cbn [plan].
  split; [reflexivity|].
  split; [exact year_chart_plan_canonical|].
  split; [reflexivity|].
  split; [exact field_chart_plan_canonical|].
  repeat split.
Qed.

Lemma quick_load_plan_witness :
  plan (loadYearChart_settle sample_response App.init) = year_chart_plan /\
  canonical_defaults "papers_by_year" (plan (loadYearChart_settle sample_response App.init)) /\
  plan (loadFieldChart_settle sample_response App.init) = field_chart_plan /\
  canonical_defaults "papers_by_field" (plan (loadFieldChart_settle sample_response App.init)) /\
  Object_keys year_chart_plan
  = [ "chart_type"; "year_from"; "year_to"; "doctype"; "field_level";
      "field_score_min"; "top_k"; "color"; "mark"; "compare";
      "compare_year_from"; "compare_year_to" ] /\
  Object_keys field_chart_plan = Object_keys year_chart_plan /\
  prop year_chart_plan "doctype" = VNull /\ prop year_chart_plan "color" = VNull /\
  prop field_chart_plan "doctype" = VNull /\ prop field_chart_plan "color" = VNull.
Proof.
  apply (quick_load_plan App.init sample_response
           [ ("vegaLiteSpec", VObj [ ("mark", VStr "line") ]);
             ("plan", VObj [ ("chart_type", VStr "papers_by_field"); ("top_k", num 3) ]) ]).
  reflexivity.
Defined.

(** C7.  After a successful chat submission and after a successful quick
    load of either chart, [selected] is null and so is the Selection read
    from it, whatever was selected before. *)
Theorem selection_cleared_on_success (s : State) (r : FetchResult) (j : Obj) :
  post_result r = inr j ->
  selected (send_settle r s) = VNull /\
  selected (loadYearChart_settle r s) = VNull /\
  selected (loadFieldChart_settle r s) = VNull /\
  Selection (send_settle r s) = VNull /\
  Selection (loadYearChart_settle r s) = VNull /\
  Selection (loadFieldChart_settle r s) = VNull.
Proof.
  intros Hj.
  rewrite (loadYearChart_success r j s Hj), (loadFieldChart_success r j s Hj).
  unfold Selection, selectionSummary, send_settle. rewrite Hj.
  cbn. repeat split.
Qed.

Lemma selection_cleared_on_success_witness :
  let s := setSelected (VObj [ ("year", num 2021) ]) App.init in
  selected (send_settle sample_response s) = VNull /\
  selected (loadYearChart_settle sample_response s) = VNull /\
  selected (loadFieldChart_settle sample_response s) = VNull /\
  Selection (send_settle sample_response s) = VNull /\
  Selection (loadYearChart_settle sample_response s) = VNull /\
  Selection (loadFieldChart_settle sample_response s) = VNull.
Proof.
  apply (selection_cleared_on_success
           (setSelected (VObj [ ("year", num 2021) ]) App.init) sample_response
           [ ("vegaLiteSpec", VObj [ ("mark", VStr "line") ]);
             ("plan", VObj [ ("chart_type", VStr "papers_by_field"); ("top_k", num 3) ]) ]).
  reflexivity.
Defined.

(** C10.  When a successful response has no data field, [loadYearChart] and
    [loadFieldChart] set the dataset to null, while [send] leaves the
    dataset it found. *)
Theorem quick_load_clears_missing_data (s : State) (r : FetchResult) (j : Obj) :
  post_result r = inr j -> own_property j "data" = None ->
  data (loadYearChart_settle r s) = VNull /\
  data (loadFieldChart_settle r s) = VNull /\
  data (send_settle r s) = data s.
Proof.
  intros Hj Hd.
  rewrite (loadYearChart_success r j s Hj), (loadFieldChart_success r j s Hj).
  unfold send_settle. rewrite Hj. unfold get. rewrite Hd.
  cbn. repeat split.
  destruct (truthy _), (truthy _); reflexivity.
Qed.

Lemma quick_load_clears_missing_data_witness :
  let s := setData (VArr [ VObj [ ("year", num 2020); ("count", num 5) ] ]) App.init in
  data (loadYearChart_settle sample_response s) = VNull /\
  data (loadFieldChart_settle sample_response s) = VNull /\
  data (send_settle sample_response s) = data s.
Proof.
  apply (quick_load_clears_missing_data
           (setData (VArr [ VObj [ ("year", num 2020); ("count", num 5) ] ]) App.init)
           sample_response
           [ ("vegaLiteSpec", VObj [ ("mark", VStr "line") ]);
             ("plan", VObj [ ("chart_type", VStr "papers_by_field"); ("top_k", num 3) ]) ]);
    reflexivity.
Defined.

End Turns.

Section SelectionFacts.
Import JS App Spec.

Lemma follow_up_no_selection (sel p : Value) :
  truthy sel = false -> follow_up sel p = None.
Proof. unfold follow_up. now intros ->. Qed.

Lemma follow_up_no_plan (sel p : Value) :
  truthy p = false -> follow_up sel p = None.
Proof. unfold follow_up. intros ->. now rewrite orb_true_r. Qed.

Lemma strict_eq_str_eq (v : Value) (s : string) :
  strict_eq_str v s = true -> v = VStr s.
Proof.
  destruct v; simpl; try discriminate.
  intros H. apply String.eqb_eq in H. now subst.
Qed.

Lemma follow_up_field_chart_no_field (o : Obj) (p : Value) :
  strict_eq_str (prop p "chart_type") "papers_by_field" = true ->
  own_property o "field" = None ->
  follow_up (VObj o) p = None.
Proof.
  intros Hct Hf. unfold follow_up.
  destruct (negb (truthy (VObj o)) || negb (truthy p)); [reflexivity|].
  rewrite (strict_eq_str_eq _ _ Hct). cbn [strict_eq_str].
  replace (String.eqb "papers_by_field" "papers_by_year") with false by reflexivity.
  rewrite String.eqb_refl.
  cbn [prop]. unfold get. now rewrite Hf.
Qed.

(** C8.  [quickAskFromSelection] produces no message, and leaves [input] and
    the rest of the state alone, when the selection is absent (null,
    undefined, or the empty mapping, which [selectionSummary] turns into
    null), when the plan is absent, and when the plan's chart type is
    papers_by_field and the selection has no field attribute; for the
    selection with the single attribute group = A under a papers_by_field
    plan there is no message. *)
Theorem follow_up_null_cases (sel p : Value) (o : Obj) (c s : State) :
  follow_up VNull p = None /\
  follow_up VUndefined p = None /\
  follow_up sel VNull = None /\
  follow_up sel VUndefined = None /\
  (selected c = VObj [] -> follow_up (selectionSummary c) (plan c) = None) /\
  (strict_eq_str (prop p "chart_type") "papers_by_field" = true ->
   own_property o "field" = None ->
   follow_up (VObj o) p = None) /\
  follow_up (VObj [ ("group", VStr "A") ]) field_chart_plan = None /\
  (follow_up (selectionSummary c) (plan c) = None -> quickAskFromSelection c s = s).
Proof.
  split; [now apply follow_up_no_selection|].
  split; [now apply follow_up_no_selection|].
  split; [now apply follow_up_no_plan|].
  split; [now apply follow_up_no_plan|].
  split.
  { intros H. unfold selectionSummary. rewrite H. reflexivity. }
  split; [apply follow_up_field_chart_no_field|].
  split; [reflexivity|].
  unfold quickAskFromSelection. now intros ->.
Qed.


End SelectionFacts.

(* ================================================================== *)
(** ** Properties of the mount effect *)
(* ================================================================== *)

Section Traces.

Variables (St Ev : Type) (step : Ev -> St -> St) (P : St -> Prop).
Hypothesis step_keeps : forall e s, P s -> P (step e s).

(** What every step keeps holds along every trace. *)
Lemma fold_keeps (evs : list Ev) (s : St) :
  P s -> P (fold_left (fun s e => step e s) evs s).
Proof.
  revert s. induction evs as [|e evs IH]; intros s Hs; simpl; auto.
Qed.

End Traces.

Module VegaViewFacts.
Import VegaView MountInvariant.
Local Open Scope nat_scope.

Lemma mem_In (g : nat) (l : list nat) : mem g l = true <-> In g l.
Proof.
  unfold mem. rewrite existsb_exists. split.
  - intros (h & Hh & E). apply Nat.eqb_eq in E. now subst.
  - intros H. exists g. split; [assumption | apply Nat.eqb_refl].
Qed.

Lemma mem_not_In (g : nat) (l : list nat) : mem g l = false <-> ~ In g l.
Proof.
  rewrite <- mem_In. destruct (mem g l); split; congruence.
Qed.

Lemma In_drop (g h : nat) (l : list nat) : In h (drop g l) <-> In h l /\ h <> g.
Proof.
  unfold drop. rewrite filter_In, negb_true_iff, Nat.eqb_neq.
  split; intros [H1 H2]; split; auto.
Qed.

Lemma finalize_ref_fields (s : Session) :
  generation (finalize_ref s) = generation s /\
  current (finalize_ref s) = current s /\
  canceled (finalize_ref s) = canceled s /\
  pending (finalize_ref s) = pending s /\
  view (finalize_ref s) = view s /\
  viewRef (finalize_ref s) = None.
Proof.
  unfold finalize_ref. destruct (viewRef s) eqn:E; cbn; auto 10.
Qed.

Lemma option_nat_dec (a b : option nat) : a = b \/ a <> b.
Proof.
  destruct a as [x|], b as [y|]; try (right; discriminate); [|now left].
  destruct (Nat.eq_dec x y); [left; congruence | right; congruence].
Qed.

Lemma inv_init : inv init.
Proof. split; cbn; intros; try discriminate; try contradiction. Qed.

Lemma inv_cleanup (s : Session) :
  inv s ->
  let s' := run_cleanup s in
  generation s' = generation s /\ current s' = current s /\
  pending s' = pending s /\ view s' = None /\
  (current s = None -> canceled s' = canceled s /\ viewRef s' = viewRef s) /\
  (forall g, current s = Some g -> canceled s' = g :: canceled s /\ viewRef s' = None).
Proof.
  intros I. unfold run_cleanup. destruct (current s) as [g0|] eqn:Ec; cbn zeta.
  - unfold cleanup, finalize_ref. cbn.
    destruct (viewRef s); cbn.
    all: rewrite ?Ec.
    all: split; [reflexivity|]; split; [reflexivity|]; split; [reflexivity|].
    all: split; [reflexivity|]; split; [discriminate|].
    all: intros g [= <-]; now split.
  - split; [reflexivity|]. split; [assumption|]. split; [reflexivity|].
    split.
    + destruct (view s) as [g|] eqn:Ev; [|reflexivity].
      apply (inv_view s I) in Ev. congruence.
    + split; [now split | discriminate].
Qed.

Lemma inv_step (e : Event) (s : Session) : inv s -> inv (step e s).
Proof.
  intros I. destruct e as [sp ct | | g hv | g]; cbn [step].
  - (* Mount *)
    destruct (inv_cleanup s I) as (Hg & Hc & Hp & Hv & Hnone & Hsome).
    set (s1 := run_cleanup s) in *.
    assert (Hcan : forall g, In g (canceled s1) -> g <= generation s).
    { intros g Hin. destruct (current s) as [g0|] eqn:Ec.
      - destruct (Hsome g0 eq_refl) as [Hcs _]. rewrite Hcs in Hin.
        destruct Hin as [<- | Hin].
        + now rewrite (inv_current s I g0 Ec).
        + now apply (inv_canceled s I).
      - destruct (Hnone eq_refl) as [Hcs _]. rewrite Hcs in Hin.
        now apply (inv_canceled s I). }
    assert (Hst : forall g, In g (pending s) -> In g (canceled s1)).
    { intros g Hin. destruct (current s) as [g0|] eqn:Ec.
      - destruct (Hsome g0 eq_refl) as [Hcs _]. rewrite Hcs.
        destruct (Nat.eq_dec g0 g) as [-> | Hne]; [now left | right].
        apply (inv_stale s I g Hin). congruence.
      - destruct (Hnone eq_refl) as [Hcs _]. rewrite Hcs.
        apply (inv_stale s I g Hin). congruence. }
    unfold run_start.
    destruct (negb sp || negb ct); cbn -[finalize_ref].
    + split; cbn; rewrite ?Hg, ?Hp, ?Hv; intros g.
      * now intros [= <-].
      * intros Hin. apply (inv_pending s I) in Hin. lia.
      * intros Hin _. now apply Hst.
      * intros Hin. split; [discriminate|].
        assert (Hle := inv_pending s I g Hin).
        destruct (current s) as [g0|] eqn:Ec.
        -- destruct (Hsome g0 eq_refl) as [_ ->]. discriminate.
        -- destruct (Hnone eq_refl) as [_ ->]. now apply (inv_unseen s I).
      * discriminate.
      * intros [= <-] Hin. apply Hcan in Hin. lia.
      * intros Hin. apply Hcan in Hin. lia.
    + match goal with |- context [finalize_ref ?x] =>
        destruct (finalize_ref_fields x) as (F1 & F2 & F3 & F4 & F5 & F6);
        cbn in F1, F2, F3, F4, F5, F6
      end.
      split; cbn -[finalize_ref]; rewrite ?F1, ?F2, ?F3, ?F4, ?F5, ?F6, ?Hp, ?Hv;
        intros g.
      * now intros [= <-].
      * intros [<- | Hin]; [lia|]. apply (inv_pending s I) in Hin. lia.
      * intros [<- | Hin] Hne; [congruence|]. now apply Hst.
      * intros _. split; discriminate.
      * discriminate.
      * intros [= <-] Hin. apply Hcan in Hin. lia.
      * intros Hin. apply Hcan in Hin. lia.
  - (* Unmount *)
    destruct (inv_cleanup s I) as (Hg & Hc & Hp & Hv & Hnone & Hsome).
    set (s1 := run_cleanup s) in *.
    split; cbn; rewrite ?Hg, ?Hp, ?Hv; intros g; try discriminate.
    + apply (inv_pending s I).
    + intros Hin _. destruct (current s) as [g0|] eqn:Ec.
      * destruct (Hsome g0 eq_refl) as [-> _].
        destruct (Nat.eq_dec g0 g) as [-> | Hne]; [now left | right].
        apply (inv_stale s I g Hin). congruence.
      * destruct (Hnone eq_refl) as [-> _].
        apply (inv_stale s I g Hin). congruence.
    + intros Hin. split; [discriminate|].
      destruct (current s) as [g0|] eqn:Ec.
      * destruct (Hsome g0 eq_refl) as [_ ->]. discriminate.
      * destruct (Hnone eq_refl) as [_ ->]. now apply (inv_unseen s I).
    + intros Hin. destruct (current s) as [g0|] eqn:Ec.
      * destruct (Hsome g0 eq_refl) as [Hcs _]. rewrite Hcs in Hin.
        destruct Hin as [<- | Hin].
        -- now rewrite (inv_current s I g0 Ec).
        -- now apply (inv_canceled s I).
      * destruct (Hnone eq_refl) as [Hcs _]. rewrite Hcs in Hin.
        now apply (inv_canceled s I).
  - (* EmbedResolves *)
    destruct (mem g (pending s)) eqn:Hm; [|assumption].
    apply mem_In in Hm. unfold run_resume.
    cbn [generation current canceled pending viewRef view finalized].
    destruct (mem g (canceled s)) eqn:Hc.
    + assert (inv (mkSession (generation s) (current s) (canceled s)
                     (drop g (pending s)) (viewRef s) (view s) (finalized s))) as I'.
      { split; cbn; intros h; rewrite ?In_drop.
        - apply (inv_current s I).
        - intros [Hin _]. now apply (inv_pending s I).
        - intros [Hin _]. now apply (inv_stale s I).
        - intros [Hin _]. now apply (inv_unseen s I).
        - apply (inv_view s I).
        - apply (inv_live s I).
        - apply (inv_canceled s I). }
      destruct hv; [|exact I'].
      destruct I'. split; assumption.
    + apply mem_not_In in Hc.
      assert (Hcur : current s = Some g).
      { destruct (option_nat_dec (current s) (Some g)) as [E | E]; [assumption|].
        exfalso. apply Hc. now apply (inv_stale s I). }
      split; cbn; intros h; rewrite ?In_drop.
      * apply (inv_current s I).
      * intros [Hin _]. now apply (inv_pending s I).
      * intros [Hin _]. now apply (inv_stale s I).
      * intros [Hin Hne]. destruct hv; split; congruence.
      * destruct hv; [|discriminate]. now intros [= <-].
      * apply (inv_live s I).
      * apply (inv_canceled s I).
  - (* EmbedRejects *)
    destruct (mem g (pending s)) eqn:Hm; [|assumption].
    unfold run_failed.
    cbn [generation current canceled pending viewRef view finalized].
    destruct (mem g (canceled s)) eqn:Hc;
      split; cbn; intros h; rewrite ?In_drop; try discriminate.
    all: try apply (inv_current s I); try apply (inv_view s I);
      try apply (inv_live s I); try apply (inv_canceled s I).
    all: intros [Hin Hne].
    all: try (now apply (inv_pending s I)); try (now apply (inv_stale s I)).
    + now apply (inv_unseen s I).
    + split; [discriminate|]. now apply (inv_unseen s I).
Qed.

Lemma inv_run (evs : list Event) (s : Session) : inv s -> inv (run evs s).
Proof. apply fold_keeps. intros e s'. apply inv_step. Qed.

End VegaViewFacts.

Section LastMountWins.
Import VegaView MountInvariant VegaViewFacts.
Local Open Scope nat_scope.

Lemma run_app (evs1 evs2 : list Event) (s : Session) :
  run (evs1 ++ evs2)%list s = run evs2 (run evs1 s).
Proof. apply fold_left_app. Qed.

Lemma generation_step (e : Event) (s : Session) :
  generation s <= generation (step e s).
Proof.
  destruct e as [sp ct | | g hv | g]; cbn [step].
  - unfold run_start, run_cleanup, cleanup, finalize_ref.
    destruct (current s), (viewRef s), (negb sp || negb ct); cbn; lia.
  - unfold run_cleanup, cleanup, finalize_ref.
    destruct (current s), (viewRef s); cbn; lia.
  - unfold run_resume.
    cbn [generation current canceled pending viewRef view finalized].
    destruct (mem g (pending s)), (mem g (canceled s)), hv; cbn; lia.
  - unfold run_failed.
    cbn [generation current canceled pending viewRef view finalized].
    destruct (mem g (pending s)), (mem g (canceled s)); cbn; lia.
Qed.

Lemma pending_step (e : Event) (s : Session) (m : nat) :
  In m (pending (step e s)) -> In m (pending s) \/ generation s < m.
Proof.
  destruct e as [sp ct | | g hv | g]; cbn [step].
  - unfold run_start, run_cleanup, cleanup, finalize_ref.
    destruct (current s), (viewRef s), (negb sp || negb ct); cbn; intuition lia.
  - unfold run_cleanup, cleanup, finalize_ref.
    destruct (current s), (viewRef s); cbn; auto.
  - unfold run_resume.
    cbn [generation current canceled pending viewRef view finalized].
    destruct (mem g (pending s)), (mem g (canceled s)), hv; cbn;
      rewrite ?In_drop; intuition.
  - unfold run_failed.
    cbn [generation current canceled pending viewRef view finalized].
    destruct (mem g (pending s)), (mem g (canceled s)); cbn;
      rewrite ?In_drop; intuition.
Qed.

Lemma view_step (e : Event) (s : Session) (m : nat) :
  view (step e s) = Some m -> view s = Some m \/ In m (pending s).
Proof.
  destruct e as [sp ct | | g hv | g]; cbn [step].
  - unfold run_start, run_cleanup, cleanup, finalize_ref.
    destruct (current s), (viewRef s), (negb sp || negb ct); cbn; auto; discriminate.
  - unfold run_cleanup, cleanup, finalize_ref.
    destruct (current s), (viewRef s); cbn; auto; discriminate.
  - unfold run_resume.
    cbn [generation current canceled pending viewRef view finalized].
    destruct (mem g (pending s)) eqn:Hm; auto.
    apply mem_In in Hm.
    destruct (mem g (canceled s)), hv; cbn; auto; try discriminate.
    intros [= <-]. now right.
  - unfold run_failed.
    cbn [generation current canceled pending viewRef view finalized].
    destruct (mem g (pending s)), (mem g (canceled s)); cbn; auto; discriminate.
Qed.

Lemma superseded_step (m : nat) (e : Event) (s : Session) :
  superseded m s -> superseded m (step e s).
Proof.
  intros (Hp & Hv & Hg). repeat split.
  - intros Hin. apply pending_step in Hin. destruct Hin; [auto | lia].
  - intros Hs. apply view_step in Hs. tauto.
  - pose proof (generation_step e s). lia.
Qed.

Lemma superseded_run (m : nat) (evs : list Event) (s : Session) :
  superseded m s -> superseded m (run evs s).
Proof. apply fold_keeps. intros e s'. apply superseded_step. Qed.

Lemma settled_run (m : nat) (evs : list Event) (s : Session) :
  settled m s -> settled m (run evs s).
Proof.
  apply fold_keeps. intros e s' (Hp & Hg). split.
  - intros Hin. apply pending_step in Hin. destruct Hin; [auto | lia].
  - pose proof (generation_step e s'). lia.
Qed.

(** The scenario of the specification: A is mounted, then B; the view of B
    arrives first, the view of A after it. *)
Example slow_then_fast :
  run [Mount true true; Mount true true; EmbedResolves 2 true; EmbedResolves 1 true] init
  = mkSession 2 (Some 2) [1] [] (Some 2) (Some 2) [1].
Proof. reflexivity. Qed.

(** C3.  Let run [m1] of the effect be waiting for [vegaEmbed] when a later
    run has already started.  When the view of [m1] arrives it is finalized
    and neither stored in [viewRef] nor passed to [onView]; it was not
    published at any earlier moment and is not at any later one.  From then
    on whatever is published belongs to the latest run, which is later than
    [m1], and the view of the run in force is published when it arrives. *)
Theorem last_mount_wins (evs : list Event) (m1 : nat) :
  In m1 (pending (run evs init)) -> m1 < generation (run evs init) ->
  let w := run evs init in
  let w' := step (EmbedResolves m1 true) w in
  In m1 (finalized w') /\
  view w' = view w /\ viewRef w' = viewRef w /\
  view w' <> Some m1 /\ viewRef w' <> Some m1 /\
  (forall evs1 evs2, evs = (evs1 ++ evs2)%list -> view (run evs1 init) <> Some m1) /\
  (forall evs', view (run evs' w') <> Some m1) /\
  (forall evs' g, view (run evs' w') = Some g ->
     g = generation (run evs' w') /\ m1 < g) /\
  (forall evs' m2, current (run evs' w') = Some m2 -> In m2 (pending (run evs' w')) ->
     view (step (EmbedResolves m2 true) (run evs' w')) = Some m2 /\ m1 < m2).
Proof.
  intros Hp Hg. cbn zeta.
  assert (I : inv (run evs init)) by (apply inv_run, inv_init).
  assert (Hprefix : forall evs1 evs2, evs = (evs1 ++ evs2)%list ->
                                      view (run evs1 init) <> Some m1).
  { intros evs1 evs2 -> Hs.
    assert (I1 : inv (run evs1 init)) by (apply inv_run, inv_init).
    assert (St : settled m1 (run evs1 init)).
    { split.
      - intros Hin. destruct (inv_unseen _ I1 m1 Hin) as [Hn _]. now apply Hn.
      - apply (inv_view _ I1) in Hs. apply (inv_current _ I1) in Hs. lia. }
    apply (settled_run m1 evs2) in St. rewrite <- run_app in St.
    destruct St as [St _]. now apply St. }
  revert Hp Hg I Hprefix. generalize (run evs init). intros w Hp Hg I Hprefix.
  assert (Hc : mem m1 (canceled w) = true).
  { apply mem_In. apply (inv_stale w I m1 Hp).
    intros E. apply (inv_current w I) in E. lia. }
  destruct (inv_unseen w I m1 Hp) as [Hv Hr].
  assert (Hw' : step (EmbedResolves m1 true) w
                = mkSession (generation w) (current w) (canceled w)
                    (drop m1 (pending w)) (viewRef w) (view w)
                    (finalized w ++ [m1])).
  { cbn [step]. apply mem_In in Hp. rewrite Hp.
    unfold run_resume.
    cbn [generation current canceled pending viewRef view finalized].
    now rewrite Hc. }
  assert (I' : inv (step (EmbedResolves m1 true) w)) by (apply inv_step; exact I).
  assert (S' : superseded m1 (step (EmbedResolves m1 true) w)).
  { rewrite Hw'. repeat split; cbn; auto.
    rewrite In_drop. tauto. }
  set (w' := step (EmbedResolves m1 true) w) in *.
  rewrite Hw' at 1 2 3 4 5. cbn [generation current canceled pending viewRef view finalized].
  split; [apply in_or_app; right; now left|].
  split; [reflexivity|]. split; [reflexivity|].
  split; [assumption|]. split; [assumption|].
  split; [exact Hprefix|].
  split.
  { intros evs'. now apply (superseded_run m1 evs' w' S'). }
  split.
  { intros evs' g Hs.
    assert (Iu : inv (run evs' w')) by (apply inv_run; exact I').
    destruct (superseded_run m1 evs' w' S') as (_ & _ & Hlt).
    apply (inv_view _ Iu) in Hs. apply (inv_current _ Iu) in Hs. lia. }
  intros evs' m2 Hcur Hpend.
  assert (Iu : inv (run evs' w')) by (apply inv_run; exact I').
  destruct (superseded_run m1 evs' w' S') as (Hnp & _ & Hlt).
  split.
  - cbn [step]. apply mem_In in Hpend. rewrite Hpend.
    unfold run_resume.
    cbn [generation current canceled pending viewRef view finalized].
    pose proof (inv_live _ Iu m2 Hcur) as Hl. apply mem_not_In in Hl.
    now rewrite Hl.
  - apply (inv_current _ Iu) in Hcur. lia.
Qed.

Lemma last_mount_wins_witness :
  let w := run [Mount true true; Mount true true; EmbedResolves 2 true] init in
  let w' := step (EmbedResolves 1 true) w in
  In 1 (finalized w') /\
  view w' = view w /\ viewRef w' = viewRef w /\
  view w' <> Some 1 /\ viewRef w' <> Some 1 /\
  (forall evs1 evs2,
     [Mount true true; Mount true true; EmbedResolves 2 true] = (evs1 ++ evs2)%list ->
     view (run evs1 init) <> Some 1) /\
  (forall evs', view (run evs' w') <> Some 1) /\
  (forall evs' g, view (run evs' w') = Some g ->
     g = generation (run evs' w') /\ 1 < g) /\
  (forall evs' m2, current (run evs' w') = Some m2 -> In m2 (pending (run evs' w')) ->
     view (step (EmbedResolves m2 true) (run evs' w')) = Some m2 /\ 1 < m2).
Proof.
  apply (last_mount_wins [Mount true true; Mount true true; EmbedResolves 2 true] 1).
  - cbn. now left.
  - cbn. lia.
Defined.

End LastMountWins.

(* ================================================================== *)
(** ** Properties of the event loop *)
(* ================================================================== *)

Module SessionFacts.
Import JS App Session FlightInvariant.

Lemma flight_init : inv init.
Proof. split; [reflexivity|]. left. split; reflexivity. Qed.

Lemma send_start_busy (c s : State) :
  sending c = true -> send_start c s = (s, None).
Proof. unfold send_start. intros ->. now rewrite orb_true_r. Qed.

Lemma send_start_blank (c s : State) :
  truthy (VStr (trim (input c))) = false -> send_start c s = (s, None).
Proof. unfold send_start. now intros ->. Qed.

Lemma send_start_issues (s : State) :
  truthy (VStr (trim (input s))) = true -> sending s = false ->
  exists s' rq, send_start s s = (s', Some rq) /\ sending s' = true.
Proof.
  intros Ht Hs. unfold send_start. rewrite Ht, Hs. cbn.
  eexists. eexists. split; reflexivity.
Qed.

(** The guard of [send] reads the render it was created in: called from a
    render that does not show [sending] yet, it issues a request whatever the
    latest state is. *)
Remark send_start_reads_render (c s : State) :
  truthy (VStr (trim (input c))) = true -> sending c = false ->
  exists s' rq, send_start c s = (s', Some rq).
Proof.
  intros Ht Hs. unfold send_start. rewrite Ht, Hs. cbn.
  eexists. eexists. reflexivity.
Qed.

Lemma send_settle_sending (r : FetchResult) (s : State) :
  sending (send_settle r s) = false.
Proof. reflexivity. Qed.

Lemma loadYearChart_settle_sending (r : FetchResult) (s : State) :
  sending (loadYearChart_settle r s) = sending s.
Proof. unfold loadYearChart_settle. destruct (post_result r); reflexivity. Qed.

Lemma loadFieldChart_settle_sending (r : FetchResult) (s : State) :
  sending (loadFieldChart_settle r s) = sending s.
Proof. unfold loadFieldChart_settle. destruct (post_result r); reflexivity. Qed.

Lemma handler_sending (a : bool) (v : Value) (s : State) :
  sending (handler a v s) = sending s.
Proof. unfold handler. destruct (negb a), (negb (truthy v)); reflexivity. Qed.

Lemma quickAskFromSelection_sending (c s : State) :
  sending (quickAskFromSelection c s) = sending s.
Proof. unfold quickAskFromSelection. destruct (follow_up _ _); reflexivity. Qed.

(** Every event but [Send] and [ChatSettles] leaves [sending] and the chat
    requests alone. *)
Lemma step_other (e : Event) (w : World) :
  e <> Send -> (forall r, e <> ChatSettles r) ->
  sending (app (step e w)) = sending (app w) /\ chat (step e w) = chat w.
Proof.
  intros H1 H2. destruct e as [t | | r | | | i r | v | | | v | ]; cbn [step].
  - now split.
  - congruence.
  - now elim (H2 r).
  - now split.
  - now split.
  - destruct (nth_error (charts w) i) as [[[] rq]|]; cbn [app chat];
      rewrite ?loadYearChart_settle_sending, ?loadFieldChart_settle_sending; now split.
  - destruct (view (shown w)); cbn [app chat]; rewrite ?handler_sending; now split.
  - now split.
  - cbn [app chat]. rewrite quickAskFromSelection_sending. now split.
  - now split.
  - now split.
Qed.

Lemma step_rendered (w : World) :
  shown (step Rendered w) = app w /\ app (step Rendered w) = app w /\
  chat (step Rendered w) = chat w /\ charts (step Rendered w) = charts w.
Proof. now repeat split. Qed.

(** An event followed by a render keeps the invariant. *)
Lemma flight_step (e : Event) (w : World) : inv w -> inv (step Rendered (step e w)).
Proof.
  intros [Hsh I]. split; [reflexivity|].
  cbn [step app chat].
  assert (Hother : e <> Send -> (forall r, e <> ChatSettles r) ->
            (sending (app (step e w)) = false /\ chat (step e w) = []) \/
            (sending (app (step e w)) = true /\ exists rq, chat (step e w) = [rq])).
  { intros H1 H2. destruct (step_other e w H1 H2) as [Hs Hc].
    rewrite Hs, Hc. exact I. }
  destruct e as [t | | r | | | i r | v | | | v | ];
    try (apply Hother; [discriminate | intros; discriminate]).
  - (* Send *)
    cbn [step]. rewrite Hsh. destruct I as [[Hs Hc] | [Hs (rq & Hc)]].
    + destruct (truthy (VStr (trim (input (app w))))) eqn:Ht.
      * destruct (send_start_issues (app w) Ht Hs) as (s' & rq & -> & Hs').
        right. cbn. rewrite Hc. split; [assumption|]. now exists rq.
      * rewrite (send_start_blank _ _ Ht). left. now split.
    + rewrite (send_start_busy _ _ Hs). right. cbn. split; [assumption|]. now exists rq.
  - (* ChatSettles *)
    cbn [step]. destruct I as [[Hs Hc] | [Hs (rq & Hc)]]; rewrite Hc.
    + left. now split.
    + left. now split.
Qed.

Lemma run_rendering_cons (e : Event) (evs : list Event) (w : World) :
  run (rendering (e :: evs)) w = run (rendering evs) (step Rendered (step e w)).
Proof. reflexivity. Qed.

Lemma flight_run (evs : list Event) (w : World) : inv w -> inv (run (rendering evs) w).
Proof.
  revert w. induction evs as [|e evs IH]; intros w I; [exact I|].
  rewrite run_rendering_cons. apply IH. now apply flight_step.
Qed.

End SessionFacts.

Section SingleFlight.
Import JS App Session FlightInvariant SessionFacts.

(** C2.  The code at two calls of [send] made before React renders again:
    both pass the guard, which reads [sending] from the render they were
    created in; two requests are in flight and Turn History holds the
    user's message twice.  The same holds from any render that accepts a
    submission, whatever the latest state is. *)
Theorem send_twice_before_render :
  List.length (chat (run [Send; Send] init)) = 2%nat /\
  messages (app (run [Send; Send] init))
  = [ mkMessage user (VStr "show me the number of papers by year from 2020 to 2024");
      mkMessage user (VStr "show me the number of papers by year from 2020 to 2024") ] /\
  sending (app (run [Send] init)) = true /\
  (forall c s, truthy (VStr (trim (input c))) = true -> sending c = false ->
     exists rq, send_start c s
                = (setErr EmptyString
                     (setInput EmptyString
                        (setMessages
                           (fun m => (m ++ [mkMessage user (VStr (trim (input c)))])%list)
                           (setSending true s))),
                   Some rq)).
Proof.
  split; [reflexivity|]. split; [reflexivity|]. split; [reflexivity|].
  intros c s Ht Hs. unfold send_start. rewrite Ht, Hs. cbn.
  eexists. reflexivity.
Qed.

(** X22.  When React renders after every event, at most one chat request is
    unsettled after every sequence of events from the initial state.  While
    one is, [send] does nothing: the state, Turn History, Plan,
    specification and dataset included, is what it was, and no request is
    issued.  When the request settles, with either outcome, none is left and
    [sending] is false; and when none is unsettled a submission with a text
    that is not blank is issued. *)
Theorem single_flight (evs : list Event) :
  (List.length (chat (run (rendering evs) init)) <= 1)%nat /\
  (sending (app (run (rendering evs) init)) = true <-> chat (run (rendering evs) init) <> []) /\
  (chat (run (rendering evs) init) <> [] ->
   step Send (run (rendering evs) init) = run (rendering evs) init) /\
  (forall r, chat (run (rendering evs) init) <> [] ->
     chat (step (ChatSettles r) (run (rendering evs) init)) = [] /\
     sending (app (step (ChatSettles r) (run (rendering evs) init))) = false) /\
  (chat (run (rendering evs) init) = [] ->
   truthy (VStr (trim (input (app (run (rendering evs) init))))) = true ->
   exists rq, chat (step Send (run (rendering evs) init)) = [rq]).
Proof.
  pose proof (flight_run evs init flight_init) as I.
  generalize dependent (run (rendering evs) init). intros w [Hsh I].
  destruct I as [[Hs Hc] | [Hs (rq & Hc)]].
  - rewrite Hs, Hc. cbn. split; [lia|].
    split; [split; [discriminate | congruence]|].
    split; [congruence|]. split; [congruence|].
    intros _ Ht. cbn [step]. rewrite Hsh.
    destruct (send_start_issues (app w) Ht Hs) as (s' & rq & -> & _).
    cbn. rewrite Hc. now exists rq.
  - rewrite Hs, Hc. cbn. split; [lia|].
    split; [split; [discriminate | reflexivity]|].
    split.
    + intros _. cbn [step]. rewrite Hsh. rewrite (send_start_busy _ _ Hs).
      destruct w; cbn in *. now subst.
    + split; [|discriminate].
      intros r _. cbn [step]. rewrite Hc. now split.
Qed.

End SingleFlight.

(* ================================================================== *)
(** ** Further properties: reading the CSV export back *)
(* ================================================================== *)

Module CsvRoundTrip.
Import JS Csv Spec CsvReader.

Lemma append_assoc (a b c : string) : ((a ++ b) ++ c = a ++ (b ++ c))%string.
Proof. induction a as [|x a IH]; simpl; [reflexivity | now rewrite IH]. Qed.

Lemma append_nil_r (a : string) : (a ++ EmptyString)%string = a.
Proof. induction a as [|x a IH]; simpl; [reflexivity | now rewrite IH]. Qed.

Lemma append_snoc (f : string) (c : ascii) (r : string) :
  ((f ++ str1 c) ++ r = f ++ String c r)%string.
Proof. now rewrite append_assoc. Qed.

(** The text after a field: nothing, or a comma or a line feed and more. *)
Definition boundary (k : string) : Prop :=
  k = EmptyString \/ (exists r, k = String ","%char r) \/ (exists r, k = String LF r).

(** At a boundary the reader does the same from three of its modes. *)
Lemma read_boundary (f : string) (row : list string) (k : string) :
  boundary k ->
  read FieldStart f row k = read Plain f row k /\
  read QuoteSeen f row k = read Plain f row k.
Proof.
  intros [-> | [(r & ->) | (r & ->)]]; split; reflexivity.
Qed.

Lemma read_plain_text (t f : string) (row : list string) (k : string) :
  test_class csv_special t = false ->
  read Plain f row (t ++ k) = read Plain (f ++ t) row k.
Proof.
  revert f. induction t as [|c t IH]; intros f H.
  - now rewrite append_nil_r.
  - simpl in H. apply orb_false_iff in H. destruct H as [Hc Ht].
    unfold csv_special in Hc. rewrite !orb_false_iff in Hc.
    destruct Hc as [[[Hq Hcomma] Hlf] Hcr].
    cbn [append read]. rewrite Hcomma, Hlf.
    rewrite (IH _ Ht). now rewrite append_snoc.
Qed.

Lemma read_quoted_text (t f : string) (row : list string) (k : string) :
  read Quoted f row (double_quotes t ++ k) = read Quoted (f ++ t) row k.
Proof.
  unfold double_quotes. revert f. induction t as [|c t IH]; intros f.
  - now rewrite append_nil_r.
  - cbn [list_ascii_of_string flat_map].
    destruct (Ascii.eqb c dquote) eqn:E.
    + apply Ascii.eqb_eq in E. subst c.
      cbn [app string_of_list_ascii append read].
      rewrite !Ascii.eqb_refl.
      rewrite IH. now rewrite append_snoc.
    + cbn [app string_of_list_ascii append read]. rewrite E.
      rewrite IH. now rewrite append_snoc.
Qed.

(** One cell, followed by a boundary, is read as its text. *)
Lemma read_cell (v : Value) (row : list string) (k : string) :
  boundary k ->
  read FieldStart EmptyString row (escapeCsvCell v ++ k)
  = read Plain (cell_text v) row k.
Proof.
  intros Hk. unfold escapeCsvCell. fold (cell_text v).
  destruct (test_class csv_special (cell_text v)) eqn:E.
  - rewrite replace_all_double_quotes.
    cbn [str1 append read]. rewrite Ascii.eqb_refl.
    rewrite append_assoc, read_quoted_text.
    cbn [str1 append read]. rewrite Ascii.eqb_refl.
    now apply read_boundary.
  - destruct (cell_text v) as [|c t] eqn:Ec.
    + cbn [append]. now apply read_boundary.
    + simpl in E. apply orb_false_iff in E. destruct E as [Hc Ht].
      unfold csv_special in Hc. rewrite !orb_false_iff in Hc.
      destruct Hc as [[[Hq Hcomma] Hlf] Hcr].
      cbn [append read]. rewrite Hq, Hcomma, Hlf.
      now rewrite (read_plain_text t _ row k Ht).
Qed.

(** What the reader does with a finished row, given what follows it. *)
Definition row_end (row : list string) (k : string) : list (list string) :=
  match k with
  | EmptyString => [row]
  | String _ r => row :: read_csv r
  end.

Definition line_break (k : string) : Prop :=
  k = EmptyString \/ exists r, k = String LF r.

Lemma read_last (f : string) (row : list string) (k : string) :
  line_break k -> read Plain f row k = row_end (row ++ [f]) k.
Proof. intros [-> | (r & ->)]; reflexivity. Qed.

Lemma line_break_boundary (k : string) : line_break k -> boundary k.
Proof. intros [-> | H]; [now left | right; now right]. Qed.

(** A line of at least one cell, followed by a line break or by nothing, is
    read as one row of the texts of its cells. *)
Lemma read_line (v : Value) (vs : list Value) (row : list string) (k : string) :
  line_break k ->
  read FieldStart EmptyString row
    (String.concat "," (map escapeCsvCell (v :: vs)) ++ k)
  = row_end (row ++ map cell_text (v :: vs)) k.
Proof.
  intros Hk. revert v row. induction vs as [|w vs IH]; intros v row.
  - cbn [map String.concat].
    rewrite (read_cell v row k (line_break_boundary k Hk)).
    now apply read_last.
  - change (String.concat "," (map escapeCsvCell (v :: w :: vs)))
      with (escapeCsvCell v ++ "," ++ String.concat "," (map escapeCsvCell (w :: vs)))%string.
    rewrite append_assoc.
    rewrite read_cell by (right; left; eexists; reflexivity).
    cbn [append read]. rewrite Ascii.eqb_refl.
    rewrite IH. cbn [map]. now rewrite <- app_assoc.
Qed.

(** Lines of at least one cell each, joined by line feeds, are read as the
    rows of their texts. *)
Lemma read_lines (l : list Value) (ls : list (list Value)) :
  l <> [] -> Forall (fun x => x <> []) ls ->
  read_csv (String.concat (str1 LF)
              (map (fun x => String.concat "," (map escapeCsvCell x)) (l :: ls)))
  = map (map cell_text) (l :: ls).
Proof.
  intros Hl Hls. revert l Hl. induction Hls as [|l2 ls Hl2 Hls IH]; intros l Hl.
  - cbn [map String.concat]. destruct l as [|v vs]; [contradiction|].
    unfold read_csv.
    rewrite <- (append_nil_r (String.concat "," (map escapeCsvCell (v :: vs)))).
    rewrite read_line by now left. reflexivity.
  - change (String.concat (str1 LF)
              (map (fun x => String.concat "," (map escapeCsvCell x)) (l :: l2 :: ls)))
      with (String.concat "," (map escapeCsvCell l) ++ str1 LF
            ++ String.concat (str1 LF)
                 (map (fun x => String.concat "," (map escapeCsvCell x)) (l2 :: ls)))%string.
    destruct l as [|v vs]; [contradiction|].
    unfold read_csv at 1.
    rewrite read_line by (right; eexists; reflexivity).
    cbn [row_end str1 append app]. rewrite (IH l2 Hl2). reflexivity.
Qed.

End CsvRoundTrip.

Section CsvReadBack.
Import JS Csv Spec CsvReader CsvRoundTrip.

(** X1.  A cell can be read back: a reader of comma-separated text gives,
    for the cell of any value alone, one row of one field, the text of the
    value; so two values with the same cell have the same text. *)
Theorem escapeCsvCell_read_back (v : Value) :
  read_csv (escapeCsvCell v) = [[cell_text v]] /\
  (forall w, escapeCsvCell v = escapeCsvCell w -> cell_text v = cell_text w).
Proof.
  assert (H : forall u, read_csv (escapeCsvCell u) = [[cell_text u]]).
  { intros u. unfold read_csv.
    rewrite <- (append_nil_r (escapeCsvCell u)).
    rewrite read_cell by now left. reflexivity. }
  split; [apply H|].
  intros w E. pose proof (H v) as Hv. rewrite E, H in Hv. congruence.
Qed.

(** X2.  The export can be read back: when the first record has at least one
    key, a reader of comma-separated text gives, for [toCsv] of the dataset,
    the row of the keys followed by one row per record holding, under each
    of those keys, the text of what the record reads there (its own value,
    else the member it inherits under that name, else nothing), whatever
    commas, quotes and line breaks the keys and the values contain. *)
Theorem toCsv_read_back (r0 : Obj) (rest : list Obj) :
  r0 <> [] ->
  read_csv (toCsv (r0 :: rest)) = table r0 (r0 :: rest).
Proof.
  intros H0. unfold toCsv, csv_lines, table. cbn [Object_keys].
  generalize (r0 :: rest) as rows. intros rows.
  set (keys := map fst r0).
  assert (Hk : keys <> []) by (subst keys; destruct r0; [contradiction | discriminate]).
  assert (E : String.concat "," (map (fun h => escapeCsvCell (VStr h)) keys)
              :: map (fun r => String.concat "," (map (fun h => escapeCsvCell (lookup r h)) keys)) rows
              = map (fun x => String.concat "," (map escapeCsvCell x))
                  (map VStr keys :: map (fun r => map (lookup r) keys) rows)).
  { rewrite map_cons. f_equal.
    - now rewrite map_map.
    - rewrite map_map. apply map_ext. intros r. now rewrite map_map. }
  rewrite E. rewrite read_lines.
  - rewrite map_cons. f_equal.
    + rewrite map_map. cbn [cell_text]. apply map_id.
    + rewrite map_map. apply map_ext. intros r. now rewrite map_map.
  - destruct keys; [contradiction | discriminate].
  - apply Forall_forall. intros x Hx. apply in_map_iff in Hx.
    destruct Hx as (r & <- & _). destruct keys; [contradiction | discriminate].
Qed.

Lemma toCsv_read_back_witness :
  read_csv (toCsv sample_rows) = table [ ("year", VNum (int 2020)); ("count", VNum (int 5)) ] sample_rows.
Proof.
  apply (toCsv_read_back [ ("year", VNum (int 2020)); ("count", VNum (int 5)) ]
           [ [ ("year", VNum (int 2021)); ("count", VNum (int 9)) ] ]).
  discriminate.
Defined.

End CsvReadBack.

(* ================================================================== *)
(** ** Further properties: downloads *)
(* ================================================================== *)

Module DownloadFacts.
Import JS App Downloads DownloadNames CsvRoundTrip.

Lemma split_free (sep : ascii) (s : string) :
  free_of sep s -> split sep s = [s].
Proof.
  unfold free_of. induction s as [|c r IH]; intros H; [reflexivity|].
  cbn [split]. destruct (Ascii.eqb c sep) eqn:E.
  - apply Ascii.eqb_eq in E. subst c. exfalso. apply H. now left.
  - rewrite IH; [reflexivity|]. intros Hin. apply H. now right.
Qed.

Lemma split_at (sep : ascii) (a b : string) :
  free_of sep a -> split sep (a ++ String sep b) = a :: split sep b.
Proof.
  unfold free_of. induction a as [|c r IH]; intros H.
  - cbn [append split]. now rewrite Ascii.eqb_refl.
  - cbn [append split]. destruct (Ascii.eqb c sep) eqn:E.
    + apply Ascii.eqb_eq in E. subst c. exfalso. apply H. now left.
    + rewrite IH; [reflexivity|]. intros Hin. apply H. now right.
Qed.

Lemma free_of_append (c : ascii) (a b : string) :
  free_of c a -> free_of c b -> free_of c (a ++ b).
Proof.
  unfold free_of. induction a as [|x a IH]; intros Ha Hb; [exact Hb|].
  cbn. intros [-> | Hin].
  - apply Ha. now left.
  - apply IH; auto. intros H. apply Ha. now right.
Qed.

Lemma lazy_group_step (c : ascii) (r : string) :
  Ascii.eqb ";"%char c = false -> line_terminator c = false ->
  lazy_group (String c r)
  = match lazy_group r with
    | Some g => Some (String c g)
    | None => None
    end.
Proof.
  intros E1 E2. cbn [lazy_group starts_with]. now rewrite E1, E2.
Qed.

Lemma lazy_group_mime (mime rest : string) :
  free_of ";"%char mime -> free_of LF mime -> free_of CR mime ->
  lazy_group (mime ++ ";base64" ++ rest) = Some mime.
Proof.
  unfold free_of. induction mime as [|c r IH]; intros Hs Hl Hc.
  - reflexivity.
  - assert (E1 : Ascii.eqb ";"%char c = false).
    { apply Ascii.eqb_neq. intros <-. apply Hs. now left. }
    assert (E2 : line_terminator c = false).
    { unfold line_terminator. apply orb_false_iff. split; apply Ascii.eqb_neq.
      - intros ->. apply Hl. now left.
      - intros ->. apply Hc. now left. }
    change ((String c r ++ ";base64" ++ rest)%string)
      with (String c (r ++ ";base64" ++ rest)).
    rewrite (lazy_group_step c _ E1 E2).
    rewrite IH; [reflexivity | | |]; intros H; [apply Hs | apply Hl | apply Hc]; now right.
Qed.

Lemma cells_record (builtin : Value -> string -> Value) (o : Obj) (headers : list string) :
  cells builtin (VObj o) headers
  = Some (map (fun h => Csv.escapeCsvCell (lookup o h)) headers).
Proof.
  induction headers as [|h hs IH]; [reflexivity|].
  cbn [cells member map]. now rewrite IH.
Qed.

Lemma row_lines_records (builtin : Value -> string -> Value) (rs : list Obj)
    (headers : list string) :
  row_lines builtin (map VObj rs) headers
  = Some (map (fun r => String.concat ","
                          (map (fun h => Csv.escapeCsvCell (lookup r h)) headers)) rs).
Proof.
  induction rs as [|r rs IH]; [reflexivity|].
  cbn [map row_lines]. now rewrite cells_record, IH.
Qed.

(** On an array of records [toCsv] does not throw and gives the text of
    [Csv.toCsv]. *)
Lemma toCsv_values_records (builtin : Value -> string -> Value) (rs : list Obj) :
  toCsv_values builtin (map VObj rs) = Some (Csv.toCsv rs).
Proof.
  destruct rs as [|r0 rest]; [reflexivity|].
  unfold toCsv_values. cbn [map].
  change (VObj r0 :: map VObj rest) with (map VObj (r0 :: rest)).
  now rewrite row_lines_records.
Qed.

Lemma match_mime_header (mime : string) :
  free_of ";"%char mime -> free_of LF mime -> free_of CR mime ->
  match_mime ("data:" ++ mime ++ ";base64") = Some mime.
Proof.
  intros Hs Hl Hc.
  pose proof (lazy_group_mime mime EmptyString Hs Hl Hc) as L.
  change ((";base64" ++ EmptyString)%string) with ";base64" in L.
  change (("data:" ++ mime ++ ";base64")%string)
    with (String "d" (String "a" (String "t" (String "a" (String ":" (mime ++ ";base64")))))).
  unfold match_mime at 1.
  change (starts_with "data:"
            (String "d" (String "a" (String "t" (String "a" (String ":" (mime ++ ";base64")))))))
    with true.
  cbn [skip]. now rewrite L.
Qed.

End DownloadFacts.

Section DownloadProperties.
Import JS App Downloads DownloadNames CsvRoundTrip DownloadFacts.

(** X3.  The guards of the export handlers and the flags that enable the
    buttons agree: the CSV, specification and PNG handlers get past their
    guard exactly when their button is enabled, and the JSON data handler
    gets past its guard whenever plan and data are there, which includes
    every state in which its button is enabled.  Getting past the guard is
    not delivering: [downloadCsv] throws in [toCsv] when the first row is
    null or undefined, which the flag of the button does not exclude, and
    nothing reaches [downloadBlob] then; on an array of records it delivers
    the text of [toCsv] under the file name it was given. *)
Theorem export_guards (builtin : Value -> string -> Value) (s : State) :
  calls (downloadCurrentDataCsv s) = canDownloadData s /\
  calls (downloadCurrentSpecJson s) = canDownload s /\
  match downloadCurrentPng_start s with
  | Some _ => canDownloadPng s = true
  | None => canDownloadPng s = false
  end /\
  calls (downloadCurrentDataJson s) = truthy (plan s) && truthy (data s) /\
  (canDownloadData s = true -> calls (downloadCurrentDataJson s) = true) /\
  (forall rest, truthy (plan s) = true ->
     data s = VArr (VNull :: rest) \/ data s = VArr (VUndefined :: rest) ->
     canDownloadData s = true /\
     exists d, downloadCurrentDataCsv s = Some d /\
               content d = CsvOf (elements (data s)) /\
               downloadCsv builtin (filename d) (elements (data s)) = None) /\
  (forall f rs, downloadCsv builtin f (map VObj rs) = Some (f, Csv.toCsv rs)).
Proof.
  split; [|split; [|split; [|split; [|split; [|split]]]]].
  - unfold downloadCurrentDataCsv, canDownloadData.
    destruct (truthy (plan s)), (truthy (data s)), (Array_isArray (data s));
      destruct (List.length (elements (data s))); reflexivity.
  - unfold downloadCurrentSpecJson, canDownload.
    destruct (truthy (plan s)), (truthy (spec s)); reflexivity.
  - unfold downloadCurrentPng_start, canDownloadPng.
    destruct (truthy (plan s)), (view s); reflexivity.
  - unfold downloadCurrentDataJson.
    destruct (truthy (plan s)), (truthy (data s)); reflexivity.
  - unfold downloadCurrentDataJson, canDownloadData.
    destruct (truthy (plan s)), (truthy (data s)); cbn; auto; discriminate.
  - intros rest Hp Hd.
    unfold canDownloadData, downloadCurrentDataCsv. rewrite Hp.
    destruct Hd as [-> | ->]; cbn; (split; [reflexivity|]);
      eexists; (split; [reflexivity|]); split; reflexivity.
  - intros f rs. unfold downloadCsv. now rewrite toCsv_values_records.
Qed.

Lemma stem_suffix (p : Value) (suffix : string) :
  (js_String (or_else (prop p "chart_type") (VStr "chart")) ++ "_"
   ++ js_String (or_else (prop p "year_from") (VStr EmptyString)) ++ "-"
   ++ js_String (or_else (prop p "year_to") (VStr EmptyString)) ++ suffix
   = stem p ++ suffix)%string.
Proof.
  unfold stem. rewrite !append_assoc. reflexivity.
Qed.

(** X4.  The four exports name their file from the plan alone: the file
    names are one stem followed by _data.json, _data.csv, _vegaLiteSpec.json
    and .png; the stem is the same for two plans with the same chart type
    and years; and the PNG is named from the plan of the render in which the
    button was pressed, not from the plan in force when the image arrives. *)
Theorem export_filenames (s c : State) (atob : string -> JsError + string)
    (dataUrl : string) (p q : Value) :
  named (downloadCurrentDataJson s) (stem (plan s) ++ "_data.json") /\
  named (downloadCurrentDataCsv s) (stem (plan s) ++ "_data.csv") /\
  named (downloadCurrentSpecJson s) (stem (plan s) ++ "_vegaLiteSpec.json") /\
  named (snd (downloadCurrentPng_settle atob (inr dataUrl) c s)) (stem (plan c) ++ ".png") /\
  (prop p "chart_type" = prop q "chart_type" ->
   prop p "year_from" = prop q "year_from" ->
   prop p "year_to" = prop q "year_to" ->
   stem p = stem q) /\
  (truthy (prop p "chart_type") = false ->
   truthy (prop p "year_from") = false ->
   truthy (prop p "year_to") = false ->
   stem p = "chart_-").
Proof.
  split; [|split; [|split; [|split; [|split]]]].
  - unfold downloadCurrentDataJson.
    destruct (negb (truthy (plan s)) || negb (truthy (data s))); cbn; auto.
    apply stem_suffix.
  - unfold downloadCurrentDataCsv.
    destruct (_ || _); cbn; auto. apply stem_suffix.
  - unfold downloadCurrentSpecJson.
    destruct (_ || _); cbn; auto. apply stem_suffix.
  - unfold downloadCurrentPng_settle.
    destruct (dataUrlToBlob atob dataUrl); cbn; auto. apply stem_suffix.
  - unfold stem. now intros -> -> ->.
  - unfold stem, or_else. now intros -> -> ->.
Qed.

(** X5.  [dataUrlToBlob] reads a data URL back: for the URL made of data:,
    a type with no comma, semicolon or line break, ;base64, a comma and a
    payload with no comma, the blob has that type and the character codes of
    what [atob] makes of the payload; when [atob] throws, so does
    [dataUrlToBlob]. *)
Theorem dataUrlToBlob_header (atob : string -> JsError + string)
    (mime payload : string) :
  free_of ","%char mime -> free_of ";"%char mime ->
  free_of LF mime -> free_of CR mime -> free_of ","%char payload ->
  dataUrlToBlob atob ("data:" ++ mime ++ ";base64," ++ payload)
  = match atob payload with
    | inl e => inl e
    | inr decoded =>
        inr (mkBlob (map nat_of_ascii (list_ascii_of_string decoded)) mime)
    end.
Proof.
  intros Hcomma Hsemi Hlf Hcr Hpay.
  assert (E : ("data:" ++ mime ++ ";base64," ++ payload)%string
              = (("data:" ++ mime ++ ";base64") ++ String ","%char payload)%string).
  { rewrite !append_assoc. reflexivity. }
  assert (Hmeta : free_of ","%char ("data:" ++ mime ++ ";base64")).
  { apply free_of_append; [|apply free_of_append; [assumption|]];
      unfold free_of; cbn; intuition discriminate. }
  unfold dataUrlToBlob. rewrite E, (split_at _ _ _ Hmeta), (split_free _ _ Hpay).
  cbn [nth nth_error]. now rewrite (match_mime_header mime Hsemi Hlf Hcr).
Qed.

Lemma dataUrlToBlob_header_witness :
  dataUrlToBlob (fun s => inr s) ("data:" ++ "image/png" ++ ";base64," ++ "QUJD")
  = match (fun s : string => @inr JsError string s) "QUJD" with
    | inl e => inl e
    | inr decoded =>
        inr (mkBlob (map nat_of_ascii (list_ascii_of_string decoded)) "image/png")
    end.
Proof.
  apply (dataUrlToBlob_header (fun s => inr s) "image/png" "QUJD");
    unfold free_of; cbn; intuition discriminate.
Defined.

End DownloadProperties.

(* ================================================================== *)
(** ** Further properties: turns *)
(* ================================================================== *)

Section TurnProperties.
Import JS App Session SessionNotions Spec.

Lemma trim_start_blank (s : string) : blank s -> trim_start s = EmptyString.
Proof.
  unfold blank. induction s as [|c r IH]; intros H; [reflexivity|].
  cbn [trim_start]. rewrite (H c) by now left.
  apply IH. intros d Hd. apply H. now right.
Qed.

Lemma world_eta (w : World) : mkWorld (app w) (shown w) (chat w) (charts w) = w.
Proof. now destruct w. Qed.

(** X6.  A submission whose input is empty or holds nothing but white space
    (tab, line feed, vertical tab, form feed, carriage return, space,
    no-break space: the white space of [trim] among the code units of the
    model) does nothing at all: no state changes, nothing is added to Turn
    History and no request is issued, whether or not another submission is
    in flight. *)
Theorem send_blank_input (w : World) :
  blank (input (shown w)) ->
  send_start (shown w) (app w) = (app w, None) /\
  Session.step Send w = w.
Proof.
  intros H.
  assert (E : send_start (shown w) (app w) = (app w, None)).
  { unfold send_start, trim. now rewrite (trim_start_blank _ H). }
  split; [exact E|].
  cbn [Session.step]. rewrite E. apply world_eta.
Qed.

Lemma send_blank_input_witness :
  send_start
    (shown (mkWorld (setInput (String "160" (String "009" " ")) App.init)
              (setInput (String "160" (String "009" " ")) App.init) [] []))
    (app (mkWorld (setInput (String "160" (String "009" " ")) App.init)
            (setInput (String "160" (String "009" " ")) App.init) [] []))
  = (app (mkWorld (setInput (String "160" (String "009" " ")) App.init)
            (setInput (String "160" (String "009" " ")) App.init) [] []), None) /\
  Session.step Send
    (mkWorld (setInput (String "160" (String "009" " ")) App.init)
       (setInput (String "160" (String "009" " ")) App.init) [] [])
  = mkWorld (setInput (String "160" (String "009" " ")) App.init)
      (setInput (String "160" (String "009" " ")) App.init) [] [].
Proof.
  apply (send_blank_input
           (mkWorld (setInput (String "160" (String "009" " ")) App.init)
              (setInput (String "160" (String "009" " ")) App.init) [] [])).
  intros c. cbn. intros [<- | [<- | [<- | []]]]; reflexivity.
Defined.

Lemma step_messages (e : Event) (w : World) :
  exists l, messages (app (Session.step e w)) = (messages (app w) ++ l)%list.
Proof.
  destruct e as [t | | r | | | i r | v | | | v | ]; cbn [Session.step].
  - exists []. cbn. now rewrite app_nil_r.
  - unfold send_start.
    destruct (negb (truthy (VStr (trim (input (shown w))))) || sending (shown w)); cbn.
    + exists []. now rewrite app_nil_r.
    + eexists. reflexivity.
  - destruct (chat w); [exists []; now rewrite app_nil_r|].
    cbn. unfold send_settle. destruct (post_result r) as [e | j]; cbn.
    + exists []. now rewrite app_nil_r.
    + destruct (truthy (get j "vegaLiteSpec")), (truthy (get j "data")),
        (truthy (get j "plan")); cbn; eexists; reflexivity.
  - exists []. cbn. now rewrite app_nil_r.
  - exists []. cbn. now rewrite app_nil_r.
  - unfold loadYearChart_settle, loadFieldChart_settle.
    destruct (nth_error (charts w) i) as [[[] rq]|];
      destruct (post_result r); cbn; exists []; now rewrite app_nil_r.
  - unfold handler. destruct (view (shown w)); cbn;
      try destruct (negb (truthy v)); cbn; exists []; now rewrite app_nil_r.
  - exists []. cbn. now rewrite app_nil_r.
  - unfold quickAskFromSelection. destruct (follow_up _ _); cbn;
      exists []; now rewrite app_nil_r.
  - exists []. cbn. now rewrite app_nil_r.
  - exists []. cbn. now rewrite app_nil_r.
Qed.

(** X7.  Turn History is append-only: whatever events follow, the history
    of any moment is a prefix of every later history. *)
Theorem history_append_only (evs : list Event) (w : World) :
  exists l, messages (app (Session.run evs w)) = (messages (app w) ++ l)%list.
Proof.
  revert w. induction evs as [|e evs IH]; intros w.
  - exists []. cbn. now rewrite app_nil_r.
  - cbn [Session.run fold_left]. fold (Session.run evs (Session.step e w)).
    destruct (IH (Session.step e w)) as (l2 & E2).
    destruct (step_messages e w) as (l1 & E1).
    exists (l1 ++ l2)%list. now rewrite E2, E1, app_assoc.
Qed.

End TurnProperties.

Module TurnFacts.
Import JS App Session SessionNotions FlightInvariant SessionFacts.

Lemma by_user_app (a b : list Message) :
  by_user (a ++ b) = (by_user a + by_user b)%nat.
Proof. unfold by_user. now rewrite filter_app, length_app. Qed.

Lemma by_assistant_app (a b : list Message) :
  by_assistant (a ++ b) = (by_assistant a + by_assistant b)%nat.
Proof. unfold by_assistant. now rewrite filter_app, length_app. Qed.

(** Every event but [Send] and [ChatSettles] leaves Turn History alone. *)
Lemma step_other_messages (e : Event) (w : World) :
  e <> Send -> (forall r, e <> ChatSettles r) ->
  messages (app (step e w)) = messages (app w).
Proof.
  intros H1 H2. destruct e as [t | | r | | | i r | v | | | v | ]; cbn [step];
    try reflexivity.
  - congruence.
  - now elim (H2 r).
  - unfold loadYearChart_settle, loadFieldChart_settle.
    destruct (nth_error (charts w) i) as [[[] rq]|];
      destruct (post_result r); reflexivity.
  - unfold handler. destruct (view (shown w)); cbn;
      try destruct (negb (truthy v)); reflexivity.
  - unfold quickAskFromSelection. destruct (follow_up _ _); reflexivity.
Qed.

Lemma answered_step (e : Event) (w : World) : answered w -> answered (step e w).
Proof.
  unfold answered. intros A.
  assert (Hother : e <> Send -> (forall r, e <> ChatSettles r) ->
                   (by_assistant (messages (app (step e w))) + List.length (chat (step e w))
                    <= by_user (messages (app (step e w))))%nat).
  { intros H1 H2. destruct (step_other e w H1 H2) as [_ Hc].
    now rewrite (step_other_messages e w H1 H2), Hc. }
  destruct e as [t | | r | | | i r | v | | | v | ];
    try (apply Hother; [discriminate | intros; discriminate]).
  - cbn [step]. unfold send_start.
    destruct (negb (truthy (VStr (trim (input (shown w))))) || sending (shown w)).
    + exact A.
    + cbn [post_start setErr setInput setMessages setSending app chat messages].
      rewrite by_user_app, by_assistant_app, length_app. cbn. lia.
  - cbn [step]. destruct (chat w) as [|rq rest] eqn:Ec; [now rewrite Ec|].
    cbn [app chat]. cbn [List.length] in A.
    unfold send_settle. destruct (post_result r) as [e | j].
    + cbn [setErr setSending messages]. lia.
    + destruct (truthy (get j "vegaLiteSpec")), (truthy (get j "data")),
        (truthy (get j "plan"));
        cbn [setSpec setData setPlan setSelected setMessages setSending messages];
        rewrite by_user_app, by_assistant_app; cbn; lia.
Qed.

End TurnFacts.

Section HistoryProperties.
Import JS App Session SessionNotions Spec TurnFacts.

(** X8.  After every sequence of events from the initial state, the entries
    of the assistant in Turn History, together with the chat requests that
    have not settled, are at most as many as the entries of the user: every
    answer in the history answers a message that is in the history. *)
Theorem answers_follow_messages (evs : list Event) :
  (by_assistant (messages (app (Session.run evs Session.init)))
   + List.length (chat (Session.run evs Session.init))
   <= by_user (messages (app (Session.run evs Session.init))))%nat.
Proof.
  apply (fold_keeps World Event Session.step answered).
  - intros e w. apply answered_step.
  - unfold answered. cbn. lia.
Qed.

Lemma step_frame (e : Event) (w : World) :
  successful_settle e = false ->
  plan (app (Session.step e w)) = plan (app w) /\
  spec (app (Session.step e w)) = spec (app w) /\
  data (app (Session.step e w)) = data (app w).
Proof.
  intros H. destruct e as [t | | r | | | i r | v | | | v | ]; cbn [Session.step];
    cbn [successful_settle] in H.
  - now repeat split.
  - unfold send_start.
    destruct (negb (truthy (VStr (trim (input (shown w))))) || sending (shown w));
      now repeat split.
  - destruct (chat w); [now repeat split|].
    unfold send_settle. destruct (post_result r); [now repeat split | discriminate].
  - now repeat split.
  - now repeat split.
  - unfold loadYearChart_settle, loadFieldChart_settle.
    destruct (nth_error (charts w) i) as [[[] rq]|];
      destruct (post_result r); try discriminate; now repeat split.
  - unfold handler. destruct (view (shown w)); cbn;
      try destruct (negb (truthy v)); now repeat split.
  - now repeat split.
  - unfold quickAskFromSelection. destruct (follow_up _ _); now repeat split.
  - now repeat split.
  - now repeat split.
Qed.

(** X9.  Plan, rendering specification and dataset change only when a
    request settles with a value: along any events none of which is such a
    settling (typing, sending, starting a quick load, picking, clearing, the
    follow-up button, a new view, a request that fails) the three stay what
    they were. *)
Theorem artifacts_change_only_on_success (evs : list Event) (w : World) :
  forallb (fun e => negb (successful_settle e)) evs = true ->
  plan (app (Session.run evs w)) = plan (app w) /\
  spec (app (Session.run evs w)) = spec (app w) /\
  data (app (Session.run evs w)) = data (app w).
Proof.
  revert w. induction evs as [|e evs IH]; intros w H; [now repeat split|].
  cbn [forallb] in H. apply andb_true_iff in H. destruct H as [He Hevs].
  apply negb_true_iff in He.
  cbn [Session.run fold_left]. fold (Session.run evs (Session.step e w)).
  destruct (IH (Session.step e w) Hevs) as (P & S & D).
  destruct (step_frame e w He) as (P1 & S1 & D1).
  rewrite P, S, D. now repeat split.
Qed.

Lemma artifacts_change_only_on_success_witness :
  let evs := [ Typed "make it purple"; Send;
               QuickYear; Picked (VObj [ ("year", num 2021) ]); UseAsFollowUp;
               ChatSettles (FetchResponse 500 (inr [ ("plan", VStr "x") ]));
               ChartSettles 0 (FetchRejects (mkError "TypeError" "Failed to fetch")) ] in
  plan (app (Session.run evs Session.init)) = plan (app Session.init) /\
  spec (app (Session.run evs Session.init)) = spec (app Session.init) /\
  data (app (Session.run evs Session.init)) = data (app Session.init).
Proof.
  apply (artifacts_change_only_on_success
           [ Typed "make it purple"; Send;
             QuickYear; Picked (VObj [ ("year", num 2021) ]); UseAsFollowUp;
             ChatSettles (FetchResponse 500 (inr [ ("plan", VStr "x") ]));
             ChartSettles 0 (FetchRejects (mkError "TypeError" "Failed to fetch")) ]
           Session.init).
  reflexivity.
Defined.



(** X11.  The follow-up button only fills the input: [quickAskFromSelection]
    changes no cell of the state but [input], and the event issues no request
    and settles none, so nothing is submitted until the user sends. *)
Theorem follow_up_only_fills_input (c s : State) (w : World) :
  same_but_input s (quickAskFromSelection c s) /\
  chat (Session.step UseAsFollowUp w) = chat w /\
  charts (Session.step UseAsFollowUp w) = charts w /\
  same_but_input (app w) (app (Session.step UseAsFollowUp w)).
Proof.
  assert (H : forall c s, same_but_input s (quickAskFromSelection c s)).
  { intros c0 s0. unfold quickAskFromSelection, same_but_input.
    destruct (follow_up _ _); cbn; now repeat split. }
  split; [apply H|]. split; [reflexivity|]. split; [reflexivity|].
  cbn [Session.step app]. apply H.
Qed.

End HistoryProperties.

(* ================================================================== *)
(** ** Further properties: the views of the mount effect *)
(* ================================================================== *)

Module MountTidy.
Import VegaView MountInvariant MountNotions VegaViewFacts.
Local Open Scope nat_scope.

Lemma NoDup_snoc (l : list nat) (x : nat) : NoDup l -> ~ In x l -> NoDup (l ++ [x]).
Proof.
  intros Hl Hx. induction Hl as [|y l Hy Hl IH]; cbn.
  - constructor; [tauto | constructor].
  - constructor.
    + rewrite in_app_iff. cbn. intros [H | [-> | []]]; [tauto|]. apply Hx. now left.
    + apply IH. intros H. apply Hx. now right.
Qed.

Lemma tidy_init : tidy init.
Proof. split; cbn; [reflexivity | contradiction | constructor]. Qed.

(** The cleanup of the run in force, on a tidy session. *)
Lemma tidy_cleanup (s : Session) :
  inv s -> tidy s ->
  tidy (run_cleanup s) /\ viewRef (run_cleanup s) = None /\
  view (run_cleanup s) = None /\
  generation (run_cleanup s) = generation s /\
  pending (run_cleanup s) = pending s.
Proof.
  intros I T. unfold run_cleanup. destruct (current s) as [g0|] eqn:Ec.
  - unfold cleanup, finalize_ref.
    cbn [generation current canceled pending viewRef view finalized].
    destruct (viewRef s) as [v|] eqn:Er.
    + assert (Hv : view s = Some v) by (now rewrite (tidy_same s T)).
      assert (Hcur : current s = Some v) by (now apply (inv_view s I)).
      assert (Hgen : v = generation s) by (now apply (inv_current s I)).
      split; [|now repeat split].
      split; cbn.
      * reflexivity.
      * intros g Hin. apply in_app_iff in Hin. destruct Hin as [Hin | [<- | []]].
        -- destruct (tidy_final s T g Hin) as (H1 & H2 & H3).
           split; [assumption|]. split; [discriminate | assumption].
        -- split; [|split; [discriminate | lia]].
           intros Hp. now apply (inv_unseen s I v Hp).
      * apply NoDup_snoc; [apply (tidy_once s T)|].
        intros Hin. now apply (tidy_final s T v Hin).
    + split; [|now repeat split].
      split; cbn.
      * reflexivity.
      * intros g Hin. destruct (tidy_final s T g Hin) as (H1 & H2 & H3).
        split; [assumption|]. split; [discriminate | assumption].
      * apply (tidy_once s T).
  - assert (Hv : view s = None).
    { destruct (view s) as [g|] eqn:Ev; [|reflexivity].
      apply (inv_view s I) in Ev. congruence. }
    split; [exact T|]. rewrite <- (tidy_same s T). now repeat split.
Qed.

Lemma tidy_step (e : Event) (s : Session) : inv s -> tidy s -> tidy (step e s).
Proof.
  intros I T. destruct e as [sp ct | | g hv | g]; cbn [step].
  - (* Mount *)
    destruct (tidy_cleanup s I T) as (T1 & Hr & Hv & Hg & Hp).
    set (s1 := run_cleanup s) in *.
    unfold run_start, finalize_ref.
    cbn [generation current canceled pending viewRef view finalized].
    rewrite Hr.
    destruct (negb sp || negb ct);
      split; cbn; rewrite ?Hr, ?Hv, ?Hg, ?Hp; try reflexivity;
      try apply (tidy_once s1 T1).
    + intros g Hin. destruct (tidy_final s1 T1 g Hin) as (H1 & H2 & H3).
      rewrite Hp in H1. rewrite Hg in H3. split; [assumption|].
      split; [discriminate | lia].
    + intros g Hin. destruct (tidy_final s1 T1 g Hin) as (H1 & H2 & H3).
      rewrite Hp in H1. rewrite Hg in H3. split.
      * intros [<- | Hin']; [lia | tauto].
      * split; [discriminate | lia].
  - (* Unmount *)
    destruct (tidy_cleanup s I T) as (T1 & Hr & Hv & Hg & Hp).
    set (s1 := run_cleanup s) in *.
    split; cbn; rewrite ?Hr, ?Hv; try reflexivity.
    + intros g Hin. destruct (tidy_final s1 T1 g Hin) as (H1 & H2 & H3).
      split; [assumption|]. split; [discriminate | assumption].
    + apply (tidy_once s1 T1).
  - (* EmbedResolves *)
    destruct (mem g (pending s)) eqn:Hm; [|assumption].
    apply mem_In in Hm. unfold run_resume.
    cbn [generation current canceled pending viewRef view finalized].
    destruct (inv_unseen s I g Hm) as [Hvg Hrg].
    destruct (mem g (canceled s)) eqn:Hc; [destruct hv|].
    + split; cbn.
      * apply (tidy_same s T).
      * intros h Hin. rewrite In_drop. apply in_app_iff in Hin.
        destruct Hin as [Hin | [<- | []]].
        -- destruct (tidy_final s T h Hin) as (H1 & H2 & H3).
           split; [tauto|]. now split.
        -- split; [tauto|]. split; [assumption|]. now apply (inv_pending s I).
      * apply NoDup_snoc; [apply (tidy_once s T)|].
        intros Hin. destruct (tidy_final s T g Hin) as (H1 & _). now apply H1.
    + split; cbn.
      * apply (tidy_same s T).
      * intros h Hin. rewrite In_drop.
        destruct (tidy_final s T h Hin) as (H1 & H2 & H3).
        split; [tauto|]. now split.
      * apply (tidy_once s T).
    + split; cbn.
      * reflexivity.
      * intros h Hin. rewrite In_drop.
        destruct (tidy_final s T h Hin) as (H1 & H2 & H3).
        split; [tauto|]. split; [|assumption].
        destruct hv; [|discriminate]. intros [= <-]. tauto.
      * apply (tidy_once s T).
  - (* EmbedRejects *)
    destruct (mem g (pending s)) eqn:Hm; [|assumption].
    apply mem_In in Hm. unfold run_failed.
    cbn [generation current canceled pending viewRef view finalized].
    destruct (mem g (canceled s)) eqn:Hc.
    + split; cbn.
      * apply (tidy_same s T).
      * intros h Hin. rewrite In_drop.
        destruct (tidy_final s T h Hin) as (H1 & H2 & H3).
        split; [tauto|]. now split.
      * apply (tidy_once s T).
    + apply mem_not_In in Hc.
      assert (Hcur : current s = Some g).
      { destruct (option_nat_dec (current s) (Some g)) as [E | E]; [assumption|].
        exfalso. apply Hc. now apply (inv_stale s I). }
      split; cbn.
      * (* the run in force is still waiting, so nothing is stored *)
        destruct (viewRef s) as [v|] eqn:Er; [|reflexivity].
        exfalso. assert (Hv : view s = Some v) by (now rewrite (tidy_same s T)).
        apply (inv_view s I) in Hv. rewrite Hcur in Hv. injection Hv as <-.
        now apply (inv_unseen s I g Hm).
      * intros h Hin. rewrite In_drop.
        destruct (tidy_final s T h Hin) as (H1 & H2 & H3).
        split; [tauto|]. split; [discriminate | assumption].
      * apply (tidy_once s T).
Qed.

Lemma inv_tidy_run (evs : list Event) (s : Session) :
  inv s /\ tidy s -> inv (run evs s) /\ tidy (run evs s).
Proof.
  apply (fold_keeps Session Event step (fun s => inv s /\ tidy s)).
  intros e s' [I T]. split; [now apply inv_step | now apply tidy_step].
Qed.

End MountTidy.

Module MountLeak.
Import VegaView MountInvariant MountNotions VegaViewFacts MountTidy.
Local Open Scope nat_scope.

Lemma finalized_step (e : Event) (s : Session) (g : nat) :
  In g (finalized s) -> In g (finalized (step e s)).
Proof.
  intros H. destruct e as [sp ct | | h hv | h]; cbn [step].
  - unfold run_start, run_cleanup, cleanup, finalize_ref.
    destruct (current s), (viewRef s), (negb sp || negb ct); cbn;
      rewrite ?in_app_iff; auto.
  - unfold run_cleanup, cleanup, finalize_ref.
    destruct (current s), (viewRef s); cbn; rewrite ?in_app_iff; auto.
  - unfold run_resume.
    cbn [generation current canceled pending viewRef view finalized].
    destruct (mem h (pending s)), (mem h (canceled s)), hv; cbn;
      rewrite ?in_app_iff; auto.
  - unfold run_failed.
    cbn [generation current canceled pending viewRef view finalized].
    destruct (mem h (pending s)), (mem h (canceled s)); cbn; auto.
Qed.

Lemma cleanup_finalizes (s : Session) (g : nat) :
  current s = Some g -> viewRef s = Some g -> In g (finalized (run_cleanup s)).
Proof.
  intros Hc Hr. unfold run_cleanup, cleanup, finalize_ref. rewrite Hc. cbn.
  rewrite Hr. cbn. apply in_app_iff. right. now left.
Qed.

Lemma finalized_run_start (g : nat) (sp ct : bool) (s : Session) (h : nat) :
  In h (finalized s) -> In h (finalized (run_start g sp ct s)).
Proof.
  unfold run_start, finalize_ref.
  destruct (negb sp || negb ct), (viewRef s); cbn; rewrite ?in_app_iff; auto.
Qed.

(** A pending run that is not canceled is the run in force. *)
Lemma live_pending (s : Session) (h : nat) :
  inv s -> In h (pending s) -> mem h (canceled s) = false -> current s = Some h.
Proof.
  intros I Hp Hc. apply mem_not_In in Hc.
  destruct (option_nat_dec (current s) (Some h)) as [E | E]; [assumption|].
  exfalso. apply Hc. now apply (inv_stale s I).
Qed.

Lemma accounted_step (e : Event) (s : Session) (g : nat) :
  inv s -> tidy s -> accounted g s -> accounted g (step e s).
Proof.
  intros I T [Hv | Hf]; [|right; now apply finalized_step].
  assert (Hr : viewRef s = Some g) by (now rewrite <- (tidy_same s T)).
  assert (Hc : current s = Some g) by (now apply (inv_view s I)).
  assert (Hnp : ~ In g (pending s)).
  { intros Hp. now apply (inv_unseen s I g Hp). }
  destruct e as [sp ct | | h hv | h]; cbn [step].
  - right. apply finalized_run_start. cbn [finalized].
    now apply cleanup_finalizes.
  - right. cbn [finalized]. now apply cleanup_finalizes.
  - destruct (mem h (pending s)) eqn:Hm; [|now left].
    apply mem_In in Hm. unfold run_resume.
    cbn [generation current canceled pending viewRef view finalized].
    destruct (mem h (canceled s)) eqn:Hcan.
    + destruct hv; left; exact Hv.
    + pose proof (live_pending s h I Hm Hcan) as E. rewrite Hc in E.
      injection E as <-. contradiction.
  - destruct (mem h (pending s)) eqn:Hm; [|now left].
    apply mem_In in Hm. unfold run_failed.
    cbn [generation current canceled pending viewRef view finalized].
    destruct (mem h (canceled s)) eqn:Hcan.
    + left; exact Hv.
    + pose proof (live_pending s h I Hm Hcan) as E. rewrite Hc in E.
      injection E as <-. contradiction.
Qed.

Lemma accounted_run (evs : list Event) (s : Session) (g : nat) :
  inv s -> tidy s -> accounted g s -> accounted g (run evs s).
Proof.
  intros I T A.
  assert (H : (inv (run evs s) /\ tidy (run evs s)) /\ accounted g (run evs s)).
  { apply (fold_keeps Session Event step
             (fun s => (inv s /\ tidy s) /\ accounted g s)).
    - intros e s' [[I' T'] A']. split; [split|].
      + now apply inv_step.
      + now apply tidy_step.
      + now apply accounted_step.
    - split; [split|]; assumption. }
  apply H.
Qed.

Lemma unmounted_step (e : Event) (s : Session) :
  inv s -> is_mount e = false -> unmounted s -> unmounted (step e s).
Proof.
  intros I He [Hc Hv]. destruct e as [sp ct | | h hv | h]; cbn [step];
    try discriminate.
  - unfold run_cleanup. rewrite Hc. now split.
  - destruct (mem h (pending s)) eqn:Hm; [|now split].
    apply mem_In in Hm. unfold run_resume.
    cbn [generation current canceled pending viewRef view finalized].
    destruct (mem h (canceled s)) eqn:Hcan.
    + destruct hv; now split.
    + pose proof (live_pending s h I Hm Hcan) as E. congruence.
  - destruct (mem h (pending s)) eqn:Hm; [|now split].
    apply mem_In in Hm. unfold run_failed.
    cbn [generation current canceled pending viewRef view finalized].
    destruct (mem h (canceled s)) eqn:Hcan; [now split|].
    pose proof (live_pending s h I Hm Hcan) as E. congruence.
Qed.

End MountLeak.

Section ViewProperties.
Import VegaView MountInvariant MountNotions VegaViewFacts MountTidy MountLeak.
Local Open Scope nat_scope.

(** X12.  After every sequence of mounts, unmounts and settling
    constructions, the view that [App] holds is the one in [viewRef], it has
    not been finalized, no view has been finalized twice, and no finalized
    view belongs to a construction that is still awaited. *)
Theorem views_finalized_once (evs : list Event) :
  view (run evs init) = viewRef (run evs init) /\
  NoDup (finalized (run evs init)) /\
  (forall g, view (run evs init) = Some g -> ~ In g (finalized (run evs init))) /\
  (forall g, In g (finalized (run evs init)) -> ~ In g (pending (run evs init))).
Proof.
  destruct (inv_tidy_run evs init (conj inv_init tidy_init)) as [I T].
  split; [apply (tidy_same _ T)|]. split; [apply (tidy_once _ T)|]. split.
  - intros g Hv Hf. destruct (tidy_final _ T g Hf) as (_ & H & _). now apply H.
  - intros g Hf. now destruct (tidy_final _ T g Hf) as (H & _).
Qed.

(** X13.  No view is dropped: once the construction of a run has delivered
    its view, that view is, at every later moment, either the one [App]
    holds or one that has received finalize, whichever events follow. *)
Theorem no_view_is_dropped (evs evs' : list Event) (g : nat) :
  In g (pending (run evs init)) ->
  accounted g (run evs' (step (EmbedResolves g true) (run evs init))).
Proof.
  intros Hp.
  destruct (inv_tidy_run evs init (conj inv_init tidy_init)) as [I T].
  apply accounted_run; [now apply inv_step | now apply tidy_step |].
  cbn [step]. apply mem_In in Hp. rewrite Hp. unfold run_resume, accounted.
  cbn [generation current canceled pending viewRef view finalized].
  destruct (mem g (canceled (run evs init))); cbn.
  - right. apply in_app_iff. right. now left.
  - now left.
Qed.

Lemma no_view_is_dropped_witness :
  accounted 1
    (run [Mount true true; EmbedResolves 2 true; Unmount]
       (step (EmbedResolves 1 true) (run [Mount true true] init))).
Proof.
  apply (no_view_is_dropped [Mount true true]
           [Mount true true; EmbedResolves 2 true; Unmount] 1).
  cbn. now left.
Defined.

(** X14.  After the component unmounts nothing is published until it mounts
    again: whatever constructions resolve or reject in between, [App] holds
    no view and [viewRef] is empty. *)
Theorem unmount_publishes_nothing (evs evs' : list Event) :
  forallb (fun e => negb (is_mount e)) evs' = true ->
  view (run evs' (step Unmount (run evs init))) = None /\
  viewRef (run evs' (step Unmount (run evs init))) = None.
Proof.
  intros H.
  destruct (inv_tidy_run evs init (conj inv_init tidy_init)) as [I T].
  assert (I1 : inv (step Unmount (run evs init))) by now apply inv_step.
  assert (T1 : tidy (step Unmount (run evs init))) by now apply tidy_step.
  assert (U1 : unmounted (step Unmount (run evs init))).
  { destruct (tidy_cleanup _ I T) as (_ & _ & Hv & _). split; [reflexivity|].
    cbn [step view]. exact Hv. }
  revert H I1 T1 U1. generalize (step Unmount (run evs init)).
  induction evs' as [|e evs' IH]; intros s H I1 T1 U1.
  - cbn. rewrite <- (tidy_same s T1). split; apply U1.
  - cbn [forallb] in H. apply andb_true_iff in H. destruct H as [He H].
    apply negb_true_iff in He.
    cbn [run fold_left]. fold (run evs' (step e s)).
    apply IH; [assumption | now apply inv_step | now apply tidy_step |].
    now apply unmounted_step.
Qed.

Lemma unmount_publishes_nothing_witness :
  view (run [EmbedResolves 1 true; EmbedRejects 2]
          (step Unmount (run [Mount true true; Mount true true] init))) = None /\
  viewRef (run [EmbedResolves 1 true; EmbedRejects 2]
             (step Unmount (run [Mount true true; Mount true true] init))) = None.
Proof.
  apply (unmount_publishes_nothing [Mount true true; Mount true true]
           [EmbedResolves 1 true; EmbedRejects 2]).
  reflexivity.
Defined.

End ViewProperties.

(* ================================================================== *)
(** ** Further properties: the listener of the signal pick *)
(* ================================================================== *)

Module PickFacts.
Import JS App PickChannel.
Local Open Scope nat_scope.

Lemma handler_view (a : bool) (value : Value) (s : State) :
  view (handler a value s) = view s.
Proof. unfold handler. destruct (negb a), (negb (truthy value)); reflexivity. Qed.

Lemma handler_off (value : Value) (s : State) : handler false value s = s.
Proof. reflexivity. Qed.

Lemma handler_twice (value : Value) (s : State) :
  handler true value (handler true value s) = handler true value s.
Proof. unfold handler. cbn. destruct (negb (truthy value)); reflexivity. Qed.

(** The listeners called in turn come to one call of the handler when one
    of them is active, and to nothing otherwise. *)
Lemma emit_fold (v : nat) (value : Value) (c : Channel) (l : list (nat * nat)) (s : State) :
  fold_left
    (fun s l =>
       if Nat.eqb (fst l) v
       then handler (existsb (Nat.eqb (snd l)) (active c)) value s
       else s) l s
  = if existsb (hears v c) l
    then handler true value (fold_left (fun s _ => s) l s)
    else s.
Proof.
  revert s. induction l as [|x l IH]; intros s; [reflexivity|].
  cbn [fold_left existsb]. rewrite IH. unfold hears at 2.
  assert (Hid : forall (m : list (nat * nat)) (t : State),
                  fold_left (fun s _ => s) m t = t).
  { induction m; intros; cbn; auto. }
  rewrite !Hid.
  destruct (Nat.eqb (fst x) v); cbn [andb orb].
  - destruct (existsb (Nat.eqb (snd x)) (active c)); cbn [orb].
    + destruct (existsb (hears v c) l); [apply handler_twice | reflexivity].
    + now rewrite handler_off.
  - reflexivity.
Qed.

Lemma emit_eq (v : nat) (value : Value) (c : Channel) :
  emit v value c
  = if existsb (hears v c) (attached c) then handler true value (app c) else app c.
Proof.
  unfold emit. rewrite emit_fold.
  assert (Hid : forall (m : list (nat * nat)) (t : State),
                  fold_left (fun s _ => s) m t = t).
  { induction m; intros; cbn; auto. }
  now rewrite Hid.
Qed.

Lemma emit_view (v : nat) (value : Value) (c : Channel) :
  view (emit v value c) = view (app c).
Proof.
  rewrite emit_eq. destruct (existsb _ _); [apply handler_view | reflexivity].
Qed.

Lemma existsb_eqb_In (n : nat) (l : list nat) : existsb (Nat.eqb n) l = true <-> In n l.
Proof.
  rewrite existsb_exists. split.
  - intros (m & Hm & E). apply Nat.eqb_eq in E. now subst.
  - intros H. exists n. split; [assumption | apply Nat.eqb_refl].
Qed.

Lemma pick_init : inv init.
Proof. split; cbn; intros; try discriminate; contradiction. Qed.

Lemma same_view_false (a b : option nat) : same_view a b = false -> a <> b.
Proof.
  destruct a as [x|], b as [y|]; cbn; try discriminate; intros H E.
  injection E as ->. now rewrite Nat.eqb_refl in H.
Qed.

(** After the cleanup of the run in force no run is active. *)
Lemma cleanup_quiet (c : Channel) (removes : bool) (v : option nat) :
  inv c ->
  let c1 := mkChannel (setView v (app c)) (runs c) (installed c) (active c) (attached c) in
  let c2 := match installed c1 with
            | Some (n, v0) => cleanup n v0 removes c1
            | None => c1
            end in
  app c2 = setView v (app c) /\ runs c2 = runs c /\
  (forall m, ~ In m (active c2)) /\
  (forall l, In l (attached c2) -> In l (attached c)).
Proof.
  intros I. cbn [installed]. destruct (installed c) as [[n0 v0]|] eqn:Ei; cbn zeta.
  - unfold cleanup. cbn [app runs installed active attached].
    split; [reflexivity|]. split; [reflexivity|]. split.
    + intros m Hm. apply filter_In in Hm. destruct Hm as [Hm Hne].
      destruct (inv_active c I m Hm) as (v' & Ev). rewrite Ei in Ev.
      injection Ev as <- <-. now rewrite Nat.eqb_refl in Hne.
    + intros l Hl. destruct removes; [|assumption].
      now apply filter_In in Hl.
  - cbn [app runs active attached].
    split; [reflexivity|]. split; [reflexivity|]. split; [|auto].
    intros m Hm. destruct (inv_active c I m Hm) as (v' & Ev). congruence.
Qed.

Lemma pick_step (e : Event) (c : Channel) : inv c -> inv (step e c).
Proof.
  intros I. destruct e as [v removes adds | v value]; cbn [step].
  - destruct (same_view v (view (app c))) eqn:Es; [assumption|].
    destruct (cleanup_quiet c removes v I) as (Ha & Hr & Hq & Hsub).
    cbn zeta in Ha, Hr, Hq, Hsub.
    match goal with |- inv (effect v adds ?x) => set (c2 := x) in * end.
    unfold effect. destruct v as [x|].
    + split; cbn [app runs installed active attached].
      * intros n v [= <- <-]. rewrite Ha. split; reflexivity.
      * intros n [<- | Hn]; [eauto | now elim (Hq n)].
      * intros v n Hin.
        assert (Hin' : (v, n) = (x, S (runs c2)) \/ In (v, n) (attached c2)).
        { destruct adds; [destruct Hin; auto | auto]. }
        destruct Hin' as [[= -> ->] | Hin']; [lia|].
        apply Hsub in Hin'. apply (inv_attached c I) in Hin'. lia.
      * intros v n Hin [<- | Hn]; [|now elim (Hq n)].
        assert (Hin' : (v, S (runs c2)) = (x, S (runs c2))
                       \/ In (v, S (runs c2)) (attached c2)).
        { destruct adds; [destruct Hin; auto | auto]. }
        destruct Hin' as [[= ->] | Hin']; [reflexivity|].
        apply Hsub in Hin'. apply (inv_attached c I) in Hin'. lia.
      * intros n v [= <- <-]. now left.
    + split; cbn [app runs installed active attached]; try discriminate.
      * intros n Hn. now elim (Hq n).
      * intros v n Hin. apply Hsub in Hin. apply (inv_attached c I) in Hin. lia.
      * intros v n _ Hn. now elim (Hq n).
  - split; cbn [app runs installed active attached].
    + intros n v0 E. rewrite emit_view. now apply (inv_installed c I).
    + apply (inv_active c I).
    + apply (inv_attached c I).
    + apply (inv_owner c I).
    + apply (inv_on c I).
Qed.

Lemma pick_run (evs : list Event) (c : Channel) : inv c -> inv (run evs c).
Proof. apply fold_keeps. intros e c'. apply pick_step. Qed.

Lemma channel_eta (c : Channel) :
  mkChannel (app c) (runs c) (installed c) (active c) (attached c) = c.
Proof. now destruct c. Qed.

End PickFacts.

Section PickProperties.
Import JS App PickChannel PickFacts.

(** X15.  Only the current view is heard.  After every sequence of view
    changes and emissions, whether or not adding and removing listeners
    succeeded along the way: at most one run of the effect is active; an
    emission from a view that is not the one [App] holds changes nothing; an
    emission from the current view whose listener could not be added changes
    nothing; and an emission from the current view with its listener in
    place comes to exactly one call of the handler. *)
Theorem only_current_view_is_heard (evs : list Event) (v : nat) (value : Value) :
  (forall n m, In n (active (run evs init)) -> In m (active (run evs init)) -> n = m) /\
  (view (app (run evs init)) <> Some v ->
   step (Emit v value) (run evs init) = run evs init) /\
  (forall n, installed (run evs init) = Some (n, v) ->
             ~ In (v, n) (attached (run evs init)) ->
             step (Emit v value) (run evs init) = run evs init) /\
  (forall n, installed (run evs init) = Some (n, v) ->
             In (v, n) (attached (run evs init)) ->
             app (step (Emit v value) (run evs init))
             = handler true value (app (run evs init))).
Proof.
  pose proof (pick_run evs init pick_init) as I.
  generalize dependent (run evs init). intros c I.
  assert (Hquiet : forall c0, existsb (hears v c0) (attached c0) = false ->
                              step (Emit v value) c0 = c0).
  { intros c0 H. cbn [step]. rewrite emit_eq, H. apply channel_eta. }
  split; [|split; [|split]].
  - intros n m Hn Hm.
    destruct (inv_active c I n Hn) as (vn & En).
    destruct (inv_active c I m Hm) as (vm & Em). congruence.
  - intros Hv. apply Hquiet. apply not_true_is_false. intros H.
    apply existsb_exists in H. destruct H as ([v' n] & Hin & Hh).
    unfold hears in Hh. cbn [fst snd] in Hh. apply andb_true_iff in Hh.
    destruct Hh as [Ev Hact]. apply Nat.eqb_eq in Ev. subst v'.
    apply existsb_eqb_In in Hact.
    pose proof (inv_owner c I v n Hin Hact) as Eo.
    apply (inv_installed c I) in Eo. now destruct Eo.
  - intros n Ei Hno. apply Hquiet. apply not_true_is_false. intros H.
    apply existsb_exists in H. destruct H as ([v' m] & Hin & Hh).
    unfold hears in Hh. cbn [fst snd] in Hh. apply andb_true_iff in Hh.
    destruct Hh as [Ev Hact]. apply Nat.eqb_eq in Ev. subst v'.
    apply existsb_eqb_In in Hact.
    pose proof (inv_owner c I v m Hin Hact) as Eo. rewrite Ei in Eo.
    injection Eo as <-. contradiction.
  - intros n Ei Hin. cbn [step app]. rewrite emit_eq.
    assert (H : existsb (hears v c) (attached c) = true).
    { apply existsb_exists. exists (v, n). split; [assumption|].
      unfold hears. cbn [fst snd]. rewrite Nat.eqb_refl. cbn [andb].
      apply existsb_eqb_In. now apply (inv_on c I n v). }
    now rewrite H.
Qed.

End PickProperties.

(* ================================================================== *)
(** ** Further properties: requests *)
(* ================================================================== *)

Section RequestProperties.
Import JS Csv App Session SessionNotions Spec.

Lemma ok_bounds (status : Z) : ok status = true <-> 200 <= status <= 299.
Proof. unfold ok. rewrite andb_true_iff, !Z.leb_le. tauto. Qed.

(** X16.  A response whose status is outside 200..299 is reported by its
    status alone: each of the three entry points puts HTTP and the status in
    [err], whatever the body of the response holds, and the two quick loads
    change nothing else. *)
Theorem http_status_is_reported (s : State) (status : Z) (json : JsError + Obj) :
  ~ (200 <= status <= 299) ->
  loadYearChart_settle (FetchResponse status json) s
  = setErr ("HTTP " ++ num_to_string (int status)) s /\
  loadFieldChart_settle (FetchResponse status json) s
  = setErr ("HTTP " ++ num_to_string (int status)) s /\
  send_settle (FetchResponse status json) s
  = setSending false (setErr ("HTTP " ++ num_to_string (int status)) s).
Proof.
  intros H. rewrite <- ok_bounds in H. apply not_true_is_false in H.
  unfold loadYearChart_settle, loadFieldChart_settle, send_settle.
  rewrite (post_result_http status json H). now repeat split.
Qed.

Lemma http_status_is_reported_witness :
  loadYearChart_settle (FetchResponse 404 (inr [ ("data", VArr []) ])) App.init
  = setErr ("HTTP " ++ num_to_string (int 404)) App.init /\
  loadFieldChart_settle (FetchResponse 404 (inr [ ("data", VArr []) ])) App.init
  = setErr ("HTTP " ++ num_to_string (int 404)) App.init /\
  send_settle (FetchResponse 404 (inr [ ("data", VArr []) ])) App.init
  = setSending false (setErr ("HTTP " ++ num_to_string (int 404)) App.init).
Proof.
  apply (http_status_is_reported App.init 404 (inr [ ("data", VArr []) ])). lia.
Defined.

Lemma send_settle_success (r : FetchResult) (j : Obj) (t : State) :
  post_result r = inr j ->
  send_settle r t
  = mkState (if truthy (get j "vegaLiteSpec") then get j "vegaLiteSpec" else spec t)
      (err t)
      (if truthy (get j "data") then get j "data" else data t)
      (if truthy (get j "plan") then get j "plan" else plan t)
      (view t) VNull (input t)
      (messages t ++ [mkMessage assistant (or_else (get j "answer") (VStr "OK"))])%list
      false.
Proof.
  intros Hj. unfold send_settle. rewrite Hj.
  destruct (truthy (get j "vegaLiteSpec")), (truthy (get j "data")),
    (truthy (get j "plan")); reflexivity.
Qed.

(** X17.  A chat turn that succeeds: Turn History gains the user's trimmed
    message and then the assistant's answer, or OK when the response has no
    answer; each of specification, dataset and plan is replaced when the
    response carries a truthy one and kept when the response has none; the
    input and the previous error are cleared and [sending] is false again. *)
Theorem chat_turn_success (s : State) (r : FetchResult) (j : Obj) :
  accepted s -> post_result r = inr j ->
  messages (submit r s)
  = (messages s ++ [ mkMessage user (VStr (trim (input s)));
                     mkMessage assistant (or_else (get j "answer") (VStr "OK")) ])%list /\
  spec (submit r s) = (if truthy (get j "vegaLiteSpec") then get j "vegaLiteSpec" else spec s) /\
  data (submit r s) = (if truthy (get j "data") then get j "data" else data s) /\
  plan (submit r s) = (if truthy (get j "plan") then get j "plan" else plan s) /\
  (own_property j "vegaLiteSpec" = None -> spec (submit r s) = spec s) /\
  (own_property j "data" = None -> data (submit r s) = data s) /\
  (own_property j "plan" = None -> plan (submit r s) = plan s) /\
  (own_property j "answer" = None ->
   exists h, messages (submit r s) = (h ++ [mkMessage assistant (VStr "OK")])%list) /\
  input (submit r s) = EmptyString /\ err (submit r s) = EmptyString /\
  sending (submit r s) = false.
Proof.
  intros Hacc Hj. unfold submit.
  rewrite (send_start_accepted s Hacc). cbn [fst].
  rewrite (send_settle_success r j _ Hj).
  cbn [spec err data plan view selected input messages sending].
  assert (Hnone : forall k, own_property j k = None -> truthy (get j k) = false).
  { intros k Hk. unfold get. now rewrite Hk. }
  split; [now rewrite <- app_assoc|].
  split; [reflexivity|]. split; [reflexivity|]. split; [reflexivity|].
  split; [intros H; now rewrite (Hnone _ H)|].
  split; [intros H; now rewrite (Hnone _ H)|].
  split; [intros H; now rewrite (Hnone _ H)|].
  split; [|now repeat split].
  intros H. eexists. unfold or_else. rewrite (Hnone _ H). reflexivity.
Qed.

Lemma chat_turn_success_witness :
  messages (submit sample_response App.init)
  = (messages App.init
     ++ [ mkMessage user (VStr (trim (input App.init)));
          mkMessage assistant
            (or_else (get [ ("vegaLiteSpec", VObj [ ("mark", VStr "line") ]);
                            ("plan", VObj [ ("chart_type", VStr "papers_by_field");
                                            ("top_k", num 3) ]) ] "answer")
               (VStr "OK")) ])%list.
Proof.
  apply (chat_turn_success App.init sample_response
           [ ("vegaLiteSpec", VObj [ ("mark", VStr "line") ]);
             ("plan", VObj [ ("chart_type", VStr "papers_by_field"); ("top_k", num 3) ]) ]).
  - split; reflexivity.
  - reflexivity.
Defined.

(** X18.  Quick loads are not serialized: each press issues a request in
    every state, a chat submission in flight included, and when a year chart
    and a field chart are both awaited the plan that stays is the one of the
    request that settles last, not of the one that was issued last. *)
Theorem quick_loads_race (w : World) (q1 q2 : Request) (r1 r2 : FetchResult) (j1 j2 : Obj) :
  List.length (charts (Session.step QuickYear w)) = S (List.length (charts w)) /\
  List.length (charts (Session.step QuickField w)) = S (List.length (charts w)) /\
  chat (Session.step QuickYear w) = chat w /\
  (charts w = [ (YearChart, q1); (FieldChart, q2) ] ->
   post_result r1 = inr j1 -> post_result r2 = inr j2 ->
   plan (app (Session.run [ChartSettles 0 r1; ChartSettles 0 r2] w)) = field_chart_plan /\
   plan (app (Session.run [ChartSettles 1 r2; ChartSettles 0 r1] w)) = year_chart_plan /\
   spec (app (Session.run [ChartSettles 1 r2; ChartSettles 0 r1] w)) = get j1 "vegaLiteSpec").
Proof.
  split; [|split; [|split]].
  - cbn. rewrite length_app. cbn. lia.
  - cbn. rewrite length_app. cbn. lia.
  - reflexivity.
  - intros Hc H1 H2. cbn [Session.run fold_left Session.step].
    rewrite Hc. cbn [nth_error remove_nth charts app chat].
    rewrite !(loadYearChart_success _ _ _ H1), !(loadFieldChart_success _ _ _ H2).
    now repeat split.
Qed.

Lemma line_feeds_rows (rows : list Obj) (x : string) :
  String.concat (str1 LF) (x :: map (fun _ => EmptyString) rows)
  = (x ++ line_feeds (List.length rows))%string.
Proof.
  revert x. induction rows as [|r rows IH]; intros x.
  - cbn. now rewrite CsvRoundTrip.append_nil_r.
  - change (String.concat (str1 LF) (x :: map (fun _ => EmptyString) (r :: rows)))
      with (x ++ str1 LF
            ++ String.concat (str1 LF) (EmptyString :: map (fun _ => EmptyString) rows))%string.
    now rewrite IH.
Qed.

(** X19.  The degenerate exports: the empty dataset gives the empty text,
    and a dataset whose first record has no key gives nothing but one line
    feed per record, whatever the other records hold. *)
Theorem toCsv_degenerate (rest : list Obj) :
  toCsv [] = EmptyString /\
  toCsv ([] :: rest) = line_feeds (S (List.length rest)).
Proof.
  split; [reflexivity|].
  assert (E : csv_lines [] ([] :: rest)
              = EmptyString :: map (fun _ => EmptyString) ([] :: rest)) by reflexivity.
  unfold toCsv. rewrite E, line_feeds_rows. reflexivity.
Qed.

End RequestProperties.

Section FollowUpProperties.
Import JS App Spec.

(** X20.  What the follow-up says.  Under a plan of chart type
    papers_by_year every selection gives a message, also one with no year
    attribute, in which case the message asks for the years from undefined
    to undefined; without a group attribute the message restates the
    selected year twice and nothing of the plan.  Under a plan whose chart
    type is neither papers_by_year nor papers_by_field there is no message. *)
Theorem follow_up_year_chart (sel p : Value) :
  truthy sel = true -> truthy p = true ->
  (strict_eq_str (prop p "chart_type") "papers_by_year" = true ->
   (exists msg, follow_up sel p = Some msg) /\
   (truthy (prop sel "group") = false ->
    follow_up sel p
    = Some ("show me the number of papers by year from " ++ js_String (prop sel "year")
            ++ " to " ++ js_String (prop sel "year"))%string) /\
   (truthy (prop sel "group") = false -> prop sel "year" = VUndefined ->
    follow_up sel p
    = Some "show me the number of papers by year from undefined to undefined")) /\
  (strict_eq_str (prop p "chart_type") "papers_by_year" = false ->
   strict_eq_str (prop p "chart_type") "papers_by_field" = false ->
   follow_up sel p = None).
Proof.
  intros Hs Hp. unfold follow_up. rewrite Hs, Hp. cbn [negb orb]. split.
  - intros ->. split; [eexists; reflexivity|]. split.
    + now intros ->.
    + intros -> ->. reflexivity.
  - now intros -> ->.
Qed.

Lemma follow_up_year_chart_witness :
  follow_up (VObj [ ("field", VStr "Biology") ]) year_chart_plan
  = Some "show me the number of papers by year from undefined to undefined".
Proof.
  apply (follow_up_year_chart (VObj [ ("field", VStr "Biology") ]) year_chart_plan);
    reflexivity.
Defined.

End FollowUpProperties.
